(** * voice-claude-edge: the text-to-speech endpoint [api/tts.py]

    A shallow embedding of [generate_audio], [handler.do_POST] and
    [handler.do_OPTIONS], and the properties of the endpoint stated over it.

    The handler is effectful Python: it writes a response through the
    methods of [BaseHTTPRequestHandler], calls the [edge_tts] engine, and
    wraps most of its body in [try ... except Exception].  It is embedded in
    a state-and-exception monad whose state survives a raised exception, as
    Python side effects do.  Library functions the handler calls ([int],
    [bytes.decode], [json.loads], [json.dumps], [str.encode],
    [edge_tts.Communicate]) are fields of a [runtime] record; a reference
    runtime at the end of the definitions makes everything executable. *)

From Stdlib Require Import List String Ascii ZArith Bool Lia.
From Stdlib.Strings Require Import Byte.
From Stdlib Require DecimalString DecimalNat.
Import ListNotations.

Local Open Scope string_scope.
Local Open Scope Z_scope.

(** ** Python data *)

(** [bytes] objects. *)
Definition bytes := list byte.

(** Instances of [Exception]: the class name and the text [str(e)] gives.
    System-exiting [BaseException]s (keyboard interrupt, interpreter exit)
    are not modelled, so [except Exception] catches every [exn]. *)
Record exn : Type := mk_exn { exn_class : string; exn_str : string }.

(** The outcome of evaluating a Python expression. *)
Inductive result (A : Type) : Type :=
| Ok (a : A)
| Raise (e : exn).
Arguments Ok {A} a.
Arguments Raise {A} e.

(** A [float] as [json.loads] produces it: the decimal literal
    [m * 10^e] it read (rounded to binary64 by Python), or one of the
    constants [NaN], [Infinity], [-Infinity]. *)
Inductive pyfloat : Type :=
| FDec (m e : Z)
| FNaN
| FInf (negative : bool).

(** The objects [json.loads] can return.  A [dict] keeps insertion order and
    is an association list with distinct keys in which lookup takes the
    first binding. *)
#[warnings="-register-all"]
Inductive value : Type :=
| VNone
| VBool (b : bool)
| VInt (n : Z)
| VFloat (f : pyfloat)
| VStr (s : string)
| VList (l : list value)
| VDict (d : list (string * value)).

(** [x == 0.0] for a float: the decimal literal rounds to zero in binary64
    exactly when its magnitude is at most half the least subnormal,
    [2^-1075] (ties go to the even neighbour, zero). *)
Definition float_is_zero (f : pyfloat) : bool :=
  match f with
  | FDec m e =>
      (m =? 0) || ((e <? 0) && (Z.abs m * 2 ^ 1075 <=? 10 ^ (- e)))
  | FNaN => false
  | FInf _ => false
  end.

(** [bool(x)], the test behind [if not text]. *)
Definition truthy (v : value) : bool :=
  match v with
  | VNone => false
  | VBool b => b
  | VInt n => negb (n =? 0)
  | VFloat f => negb (float_is_zero f)
  | VStr s => negb (s =? "")%string
  | VList l => match l with [] => false | _ :: _ => true end
  | VDict d => match d with [] => false | _ :: _ => true end
  end.

(** [d.get(key)] on the association list of a dict. *)
Fixpoint dict_get (d : list (string * value)) (key : string) : option value :=
  match d with
  | [] => None
  | (k, v) :: rest => if (k =? key)%string then Some v else dict_get rest key
  end.

(** The Python type name of a value, as it appears in [AttributeError]. *)
Definition type_name (v : value) : string :=
  match v with
  | VNone => "NoneType"
  | VBool _ => "bool"
  | VInt _ => "int"
  | VFloat _ => "float"
  | VStr _ => "str"
  | VList _ => "list"
  | VDict _ => "dict"
  end.

(** [data.get(key, default)]: only a dict has the method. *)
Definition py_get (data : value) (key : string) (default : value)
  : result value :=
  match data with
  | VDict d =>
      Ok (match dict_get d key with Some v => v | None => default end)
  | _ =>
      Raise (mk_exn "AttributeError"
               ("'" ++ type_name data ++ "' object has no attribute 'get'"))
  end.

(** [str(n)] for a length. *)
Definition str_of_nat (n : nat) : string :=
  DecimalString.NilEmpty.string_of_uint (Nat.to_uint n).

(** ** The engine's chunk stream *)

(** Modelled from the spec: the chunk type of the external engine, a tagged
    record [{type, data}]; its declaration belongs to [edge_tts]. *)
Record chunk : Type := mk_chunk { type : string; data : bytes }.

(** What [communicate.stream()] does when iterated: it yields a chunk and
    goes on, is exhausted, or raises. *)
Inductive stream : Type :=
| Exhausted
| Yield (c : chunk) (rest : stream)
| Fails (e : exn).

(** The stream that yields the chunks of a list and ends. *)
Fixpoint stream_of_list (cs : list chunk) : stream :=
  match cs with
  | [] => Exhausted
  | c :: cs' => Yield c (stream_of_list cs')
  end.

(** [chunk["type"] == "audio"] *)
Definition is_audio (c : chunk) : bool := (type c =? "audio")%string.

(** Lines 14-18 of [generate_audio]: the [async for] loop over the stream,
    with [audio_data] the content of the [BytesIO] buffer so far, and the
    final [getvalue()]. *)
Fixpoint consume (s : stream) (audio_data : bytes) : result bytes :=
  match s with
  | Exhausted => Ok audio_data
  | Yield c rest =>
      if is_audio c
      then consume rest (audio_data ++ data c)%list
      else consume rest audio_data
  | Fails e => Raise e
  end.

(** ** The request *)

(** What the handler can see of a request: [self.headers], the bytes the
    client sent after the header block (up to end of file), and the
    exception that a read of one byte or more raises, if it raises one: an
    I/O error on the socket, or [MemoryError] for a length the machine
    cannot allocate. *)
Record request : Type := mk_request {
  headers : list (string * string);
  rfile : bytes;
  rfile_error : option exn
}.

Definition ascii_lower (c : ascii) : ascii :=
  let n := nat_of_ascii c in
  if ((65 <=? n) && (n <=? 90))%nat then ascii_of_nat (n + 32) else c.

(** [s.lower()] on header names. *)
Fixpoint lower (s : string) : string :=
  match s with
  | EmptyString => EmptyString
  | String c s' => String (ascii_lower c) (lower s')
  end.

(** [self.headers.get(name)]: the first header whose name matches,
    whatever the case of its letters. *)
Fixpoint headers_get (hs : list (string * string)) (name : string)
  : option string :=
  match hs with
  | [] => None
  | (k, v) :: rest =>
      if (lower k =? lower name)%string then Some v else headers_get rest name
  end.

(** [self.rfile.read(n)] on the buffered reader of a 64-bit build: a
    length outside the machine integers does not convert, a length below
    [-1] is refused, a length of [0] returns at once, a length within 33 of
    [2^63] is too large for a [bytes] object, [-1] reads to end of file,
    and any other length returns that many bytes, or fewer at end of
    file. *)
Definition rfile_read (req : request) (n : Z) : result bytes :=
  if (n <? - 2 ^ 63) || (2 ^ 63 <=? n) then
    Raise (mk_exn "OverflowError"
             "cannot fit 'int' into an index-sized integer")
  else if n <? -1 then
    Raise (mk_exn "ValueError" "read length must be non-negative or -1")
  else if n =? 0 then Ok []
  else if 2 ^ 63 - 33 <=? n then
    Raise (mk_exn "OverflowError" "byte string is too large")
  else match rfile_error req with
       | Some e => Raise e
       | None =>
           if n =? -1 then Ok (rfile req)
           else Ok (firstn (Z.to_nat n) (rfile req))
       end.

(** ** The libraries the handler calls *)

Record runtime : Type := mk_runtime {
  (** [int(s)] for a [str] *)
  py_int : string -> result Z;
  (** [b.decode('utf-8')] *)
  bytes_decode : bytes -> result string;
  (** [json.loads(s)] *)
  json_loads : string -> result value;
  (** [json.dumps(d)] for a dict from [str] to [str], the only kind the
      handler serialises *)
  json_dumps : list (string * string) -> string;
  (** [s.encode()] *)
  str_encode : string -> bytes;
  (** [edge_tts.Communicate(text, voice)]: the constructor raises, or gives
      an object whose [stream()] is the stream returned here *)
  Communicate : value -> string -> result stream
}.

(** ** Effects *)

(** A call the handler makes on the response side of
    [BaseHTTPRequestHandler].  The trace records the handler's own calls;
    what the base class adds by itself inside [send_response] (the [Server]
    and [Date] lines) is outside the model. *)
Inductive event : Type :=
| SendResponse (code : Z)
| SendHeader (keyword val : string)
| EndHeaders
| Write (b : bytes).

(** The state the handler acts on: the response calls that went through,
    oldest first; how many response calls were attempted; and the arguments
    of every [edge_tts.Communicate] call, oldest first. *)
Record world : Type := mk_world {
  sent : list event;
  attempts : nat;
  engine_calls : list (value * string)
}.

Definition fresh : world := mk_world [] 0 [].

(** The client connection: the exception that the [n]-th response call
    raises, if it raises one (a closed socket, a broken pipe). *)
Definition connection : Type := nat -> option exn.

(** A connection on which no response call fails. *)
Definition reliable (conn : connection) : Prop := forall n, conn n = None.

(** Computations with state and exceptions.  The state reached when an
    exception is raised is kept: nothing is rolled back. *)
Definition M (A : Type) : Type := world -> result A * world.

Definition ret {A} (a : A) : M A := fun w => (Ok a, w).

Definition bind {A B} (m : M A) (k : A -> M B) : M B :=
  fun w =>
    match m w with
    | (Ok a, w') => k a w'
    | (Raise e, w') => (Raise e, w')
    end.

(** An expression without side effects. *)
Definition lift {A} (r : result A) : M A := fun w => (r, w).

(** [try: body  except Exception as e: handler e] *)
Definition try_except {A} (body : M A) (handler : exn -> M A) : M A :=
  fun w =>
    match body w with
    | (Ok a, w') => (Ok a, w')
    | (Raise e, w') => handler e w'
    end.

Declare Scope py_scope.
Delimit Scope py_scope with py.
Notation "x <- m ;; k" := (bind m (fun x => k))
  (at level 61, m at next level, right associativity) : py_scope.
Notation "m ;; k" := (bind m (fun _ => k))
  (at level 61, right associativity) : py_scope.

(** ** The source *)

(** Line 7. *)
Definition VOICE : string := "en-GB-RyanNeural".

Definition dquote : ascii := "034"%char.

(** A string literal between double quotes. *)
Definition quoted (s : string) : string :=
  String dquote (s ++ String dquote EmptyString).

(** The bytes literal of line 37. *)
Definition no_text_body : bytes :=
  list_byte_of_string
    ("{" ++ quoted "error" ++ ": " ++ quoted "No text provided" ++ "}").

(** Lines 9-18.  The call of the engine is logged with its arguments.
    [asyncio.run] (line 41) runs the coroutine to completion and returns
    or raises what it does. *)
Definition generate_audio (rt : runtime) (text : value) : M bytes :=
  fun w =>
    let w' := mk_world (sent w) (attempts w)
                (engine_calls w ++ [(text, VOICE)]) in
    match Communicate rt text VOICE with
    | Raise e => (Raise e, w')
    | Ok s => (consume s [], w')
    end.

(** Lines 20-60: [class handler(BaseHTTPRequestHandler)], for one request
    [req] on one connection [conn]. *)
Module handler.

Section instance.

Variable rt : runtime.
Variable conn : connection.
Variable req : request.

(** The inherited response methods.  One response call raises what the
    connection says, or is recorded. *)
Definition perform (ev : event) : M unit :=
  fun w =>
    match conn (attempts w) with
    | Some e =>
        (Raise e, mk_world (sent w) (S (attempts w)) (engine_calls w))
    | None =>
        (Ok tt, mk_world (sent w ++ [ev]) (S (attempts w)) (engine_calls w))
    end.

Definition send_response (code : Z) : M unit := perform (SendResponse code).
Definition send_header (keyword val : string) : M unit :=
  perform (SendHeader keyword val).
Definition end_headers : M unit := perform EndHeaders.
Definition wfile_write (b : bytes) : M unit := perform (Write b).

(** Line 28: [int(self.headers.get('Content-Length', 0))]; the default is
    the integer [0], which [int] returns as it is. *)
Definition content_length : result Z :=
  match headers_get (headers req) "Content-Length" with
  | Some s => py_int rt s
  | None => Ok 0
  end.

(** Lines 28-31: the request body, read, decoded and parsed. *)
Definition read_json : result value :=
  match content_length with
  | Raise e => Raise e
  | Ok n =>
      match rfile_read req n with
      | Raise e => Raise e
      | Ok raw =>
          match bytes_decode rt raw with
          | Raise e => Raise e
          | Ok body => json_loads rt body
          end
      end
  end.

(** Lines 49-53, the [except] block. *)
Definition error_body (e : exn) : bytes :=
  str_encode rt (json_dumps rt [("error", exn_str e)]).

Definition on_exception (e : exn) : M unit :=
  (send_header "Content-Type" "application/json" ;;
   end_headers ;;
   wfile_write (error_body e))%py.

(** Lines 21-53. *)
Definition do_POST : M unit :=
  (send_response 200 ;;
   send_header "Access-Control-Allow-Origin" "*" ;;
   try_except
     (data <- lift read_json ;;
      text <- lift (py_get data "text" (VStr "")) ;;
      if negb (truthy text) then
        send_header "Content-Type" "application/json" ;;
        end_headers ;;
        wfile_write no_text_body
      else
        audio <- generate_audio rt text ;;
        send_header "Content-Type" "audio/mpeg" ;;
        send_header "Content-Length" (str_of_nat (List.length audio)) ;;
        end_headers ;;
        wfile_write audio)
     on_exception)%py.

(** Lines 55-60. *)
Definition do_OPTIONS : M unit :=
  (send_response 200 ;;
   send_header "Access-Control-Allow-Origin" "*" ;;
   send_header "Access-Control-Allow-Methods" "POST, OPTIONS" ;;
   send_header "Access-Control-Allow-Headers" "Content-Type" ;;
   end_headers)%py.

End instance.

End handler.

Import handler.

(** ** Reading a trace as an HTTP response *)

Record response : Type := mk_response {
  status : Z;
  response_headers : list (string * string);
  body : bytes
}.

(** The headers sent up to [end_headers], and what follows it. *)
Fixpoint split_headers (t : list event)
  : option (list (string * string) * list event) :=
  match t with
  | SendHeader k v :: t' =>
      match split_headers t' with
      | Some (hs, after) => Some ((k, v) :: hs, after)
      | None => None
      end
  | EndHeaders :: t' => Some ([], t')
  | _ => None
  end.

(** The body: the writes that follow the header block, joined. *)
Fixpoint body_of (t : list event) : option bytes :=
  match t with
  | [] => Some []
  | Write b :: t' =>
      match body_of t' with
      | Some rest => Some (b ++ rest)%list
      | None => None
      end
  | _ => None
  end.

(** A trace is a response when it is a status line, headers, the end of the
    headers and writes, in this order. *)
Definition response_of (t : list event) : option response :=
  match t with
  | SendResponse code :: t' =>
      match split_headers t' with
      | Some (hs, after) =>
          match body_of after with
          | Some b => Some (mk_response code hs b)
          | None => None
          end
      | None => None
      end
  | _ => None
  end.

(** The status codes sent in a trace. *)
Definition statuses (t : list event) : list Z :=
  flat_map (fun ev => match ev with SendResponse c => [c] | _ => [] end) t.

(** ** A reference runtime

    The library functions of [runtime], written out so that the handler can
    be run on concrete requests.  Python [str] values are held as their
    UTF-8 bytes; positions in error messages count characters.  The
    functions follow CPython 3.12 on ASCII text; each comment says where
    they stop doing so. *)

Module Reference.

Local Open Scope N_scope.

Definition code (c : ascii) : N := N_of_ascii c.

Definition is_digit (c : ascii) : bool := (48 <=? code c) && (code c <=? 57).

Definition digit_val (c : ascii) : Z := Z.of_N (code c - 48).

(** C [isspace]: blank, tab, newline, vertical tab, form feed, return. *)
Definition is_space (c : ascii) : bool :=
  (code c =? 32) || ((9 <=? code c) && (code c <=? 13)).

Fixpoint lstrip (s : string) : string :=
  match s with
  | String c s' => if is_space c then lstrip s' else s
  | EmptyString => EmptyString
  end.

Definition hex_digit (n : N) : ascii :=
  if n <? 10 then ascii_of_N (48 + n) else ascii_of_N (87 + n).

(** [n] in hexadecimal, on [width] digits. *)
Fixpoint hex_digits (width : nat) (n : N) : string :=
  match width with
  | O => EmptyString
  | S w =>
      (hex_digits w (n / 16)
         ++ String (hex_digit (n mod 16)) EmptyString)%string
  end.

Fixpoint contains (c : ascii) (s : string) : bool :=
  match s with
  | EmptyString => false
  | String d s' => Ascii.eqb c d || contains c s'
  end.

Fixpoint repr_chars (q : ascii) (s : string) : string :=
  match s with
  | EmptyString => EmptyString
  | String c s' =>
      let rest := repr_chars q s' in
      let n := code c in
      if Ascii.eqb c q then String "\" (String c rest)
      else if n =? 92 then String "\" (String "\" rest)
      else if n =? 9 then String "\" (String "t" rest)
      else if n =? 10 then String "\" (String "n" rest)
      else if n =? 13 then String "\" (String "r" rest)
      else if (n <? 32) || (n =? 127) then
        (String "\" (String "x" (hex_digits 2 n)) ++ rest)%string
      else String c rest
  end.

(** [repr(s)] for ASCII text: single quotes, unless the text has a single
    quote and no double quote. *)
Definition repr (s : string) : string :=
  let q := if contains "'" s && negb (contains dquote s)
           then dquote else "'"%char in
  String q (repr_chars q s ++ String q EmptyString)%string.

(** An optional sign at the head of [s], [-] or, when [plus] allows it,
    [+]: whether it is [-], the characters it takes, and what follows. *)
Definition take_sign (plus : bool) (s : string) : bool * nat * string :=
  match s with
  | String c s' =>
      if code c =? 45 then (true, 1%nat, s')
      else if plus && (code c =? 43) then (false, 1%nat, s')
      else (false, 0%nat, s)
  | EmptyString => (false, 0%nat, s)
  end.

(** *** [int] *)

(** Digits with single underscores between them; [acc] is the value so
    far, [after_digit] whether the last character was a digit.  Returns
    the value and what follows the literal. *)
Fixpoint int_digits (s : string) (acc : Z) (after_digit : bool)
  : option (Z * string) :=
  match s with
  | String c s' =>
      if is_digit c then int_digits s' (acc * 10 + digit_val c)%Z true
      else if (code c =? 95) && after_digit then
        match s' with
        | String d _ => if is_digit d then int_digits s' acc false else None
        | EmptyString => None
        end
      else if after_digit then Some (acc, s) else None
  | EmptyString => if after_digit then Some (acc, s) else None
  end.

(** [int(s)] for an ASCII [str] of fewer than 200 characters and 4300
    digits: an optional sign and decimal digits, with blank space allowed
    around them. *)
Definition py_int (s : string) : result Z :=
  let bad := Raise (mk_exn "ValueError"
               ("invalid literal for int() with base 10: " ++ repr s)%string) in
  let '(neg, _, u) := take_sign true (lstrip s) in
  match int_digits u 0%Z false with
  | Some (n, after) =>
      match lstrip after with
      | EmptyString => Ok (if neg then (- n)%Z else n)
      | _ => bad
      end
  | None => bad
  end.

(** *** [bytes.decode('utf-8')] *)

Definition byte_code (b : byte) : N := Byte.to_N b.

Definition is_cont (n : N) : bool := (128 <=? n) && (n <=? 191).

(** The second byte of a sequence, given the first: the ranges that
    exclude overlong forms, surrogates and code points above 10FFFF. *)
Definition second_ok (n n2 : N) : bool :=
  if n =? 224 then (160 <=? n2) && (n2 <=? 191)
  else if n =? 237 then (128 <=? n2) && (n2 <=? 159)
  else if n =? 240 then (144 <=? n2) && (n2 <=? 191)
  else if n =? 244 then (128 <=? n2) && (n2 <=? 143)
  else is_cont n2.

(** [UnicodeDecodeError] for the bytes from offset [start] up to [stop]. *)
Definition utf8_error (b : byte) (start stop : nat) (reason : string)
  : result string :=
  let where_ :=
    if (stop =? S start)%nat
    then ("byte 0x" ++ hex_digits 2 (byte_code b) ++ " in position "
            ++ str_of_nat start)%string
    else ("bytes in position " ++ str_of_nat start ++ "-"
            ++ str_of_nat (stop - 1))%string in
  Raise (mk_exn "UnicodeDecodeError"
           ("'utf-8' codec can't decode " ++ where_ ++ ": " ++ reason)%string).

Definition push (bs : list byte) (r : result string) : result string :=
  match r with
  | Ok s => Ok (string_of_list_byte bs ++ s)%string
  | Raise e => Raise e
  end.

Definition bad_cont : string := "invalid continuation byte".
Definition bad_end : string := "unexpected end of data".

(** Strict UTF-8 decoding; [pos] is the offset of [bs] in the input. *)
Fixpoint decode_from (bs : list byte) (pos : nat) : result string :=
  match bs with
  | [] => Ok EmptyString
  | b :: r1 =>
      let n := byte_code b in
      if n <? 128 then push [b] (decode_from r1 (pos + 1)%nat)
      else if (n <? 194) || (244 <? n) then
        utf8_error b pos (pos + 1) "invalid start byte"
      else
        match r1 with
        | [] => utf8_error b pos (pos + 1) bad_end
        | b2 :: r2 =>
            if negb (second_ok n (byte_code b2)) then
              utf8_error b pos (pos + 1) bad_cont
            else if n <? 224 then push [b; b2] (decode_from r2 (pos + 2)%nat)
            else
              match r2 with
              | [] => utf8_error b pos (pos + 2) bad_end
              | b3 :: r3 =>
                  if negb (is_cont (byte_code b3)) then
                    utf8_error b pos (pos + 2) bad_cont
                  else if n <? 240 then
                    push [b; b2; b3] (decode_from r3 (pos + 3)%nat)
                  else
                    match r3 with
                    | [] => utf8_error b pos (pos + 3) bad_end
                    | b4 :: r4 =>
                        if negb (is_cont (byte_code b4)) then
                          utf8_error b pos (pos + 3) bad_cont
                        else
                          push [b; b2; b3; b4] (decode_from r4 (pos + 4)%nat)
                    end
              end
        end
  end.

Definition bytes_decode (b : bytes) : result string := decode_from b 0.

(** [s.encode()]: the UTF-8 bytes the string is held as. *)
Definition str_encode (s : string) : bytes := list_byte_of_string s.

(** *** [json.dumps] *)

Definition u_escape (n : N) : string :=
  String "\" (String "u" (hex_digits 4 n)).

(** The escape of a character that is a quote, a backslash, or outside
    [' '..'~']. *)
Definition escape_cp (cp : N) : string :=
  if cp =? 34 then String "\" (String dquote EmptyString)
  else if cp =? 92 then String "\" (String "\" EmptyString)
  else if cp =? 10 then String "\" (String "n" EmptyString)
  else if cp =? 13 then String "\" (String "r" EmptyString)
  else if cp =? 9 then String "\" (String "t" EmptyString)
  else if cp =? 12 then String "\" (String "f" EmptyString)
  else if cp =? 8 then String "\" (String "b" EmptyString)
  else if cp <? 65536 then u_escape cp
  else
    let v := cp - 65536 in
    (u_escape (55296 + v / 1024) ++ u_escape (56320 + v mod 1024))%string.

(** The characters of a string held as UTF-8, escaped as [ensure_ascii]
    asks.  A byte that does not start a sequence counts as a character of
    its own. *)
Fixpoint escape_chars (s : string) : string :=
  match s with
  | EmptyString => EmptyString
  | String c s1 =>
      let n := code c in
      let lone (_ : unit) := (escape_cp n ++ escape_chars s1)%string in
      if (32 <=? n) && (n <=? 126) && negb (n =? 34) && negb (n =? 92)
      then String c (escape_chars s1)
      else if n <? 192 then lone tt
      else
        match s1 with
        | String c2 s2 =>
            if negb (is_cont (code c2)) then lone tt
            else if n <? 224 then
              (escape_cp ((n - 192) * 64 + (code c2 - 128))
                 ++ escape_chars s2)%string
            else
              match s2 with
              | String c3 s3 =>
                  if negb (is_cont (code c3)) then lone tt
                  else if n <? 240 then
                    (escape_cp ((n - 224) * 4096 + (code c2 - 128) * 64
                                + (code c3 - 128)) ++ escape_chars s3)%string
                  else
                    match s3 with
                    | String c4 s4 =>
                        if negb (is_cont (code c4)) then lone tt
                        else
                          (escape_cp ((n - 240) * 262144
                                      + (code c2 - 128) * 4096
                                      + (code c3 - 128) * 64 + (code c4 - 128))
                             ++ escape_chars s4)%string
                    | EmptyString => lone tt
                    end
              | EmptyString => lone tt
              end
        | EmptyString => lone tt
        end
  end.

(** [encode_basestring_ascii]: a JSON string literal in ASCII. *)
Definition json_string (s : string) : string := quoted (escape_chars s).

Fixpoint dumps_items (d : list (string * string)) : string :=
  match d with
  | [] => EmptyString
  | (k, v) :: rest =>
      let item := (json_string k ++ ": " ++ json_string v)%string in
      match rest with
      | [] => item
      | _ :: _ => (item ++ ", " ++ dumps_items rest)%string
      end
  end.

(** [json.dumps(d)] with the default separators. *)
Definition json_dumps (d : list (string * string)) : string :=
  ("{" ++ dumps_items d ++ "}")%string.

(** *** [json.loads] *)

(** The outcome of scanning at a position: a result, the rest of the text
    and its position; the message and position of a [JSONDecodeError]; or
    the end of the fuel. *)
Inductive scan (A : Type) : Type :=
| Got (a : A) (rest : string) (pos : nat)
| Bad (msg : string) (pos : nat)
| Deep.
Arguments Got {A} a rest pos.
Arguments Bad {A} msg pos.
Arguments Deep {A}.

Definition is_ws (c : ascii) : bool :=
  (code c =? 32) || (code c =? 9) || (code c =? 10) || (code c =? 13).

Fixpoint skip_ws (s : string) (pos : nat) : string * nat :=
  match s with
  | String c s' => if is_ws c then skip_ws s' (S pos) else (s, pos)
  | EmptyString => (s, pos)
  end.

(** The position after a byte: it moves on unless the byte continues a
    character. *)
Definition step (c : ascii) (pos : nat) : nat :=
  if is_cont (code c) then pos else S pos.

Fixpoint drop (n : nat) (s : string) : string :=
  match n, s with
  | S n', String _ s' => drop n' s'
  | _, _ => s
  end.

Definition hex_val (c : ascii) : option N :=
  let n := code c in
  if is_digit c then Some (n - 48)
  else if (97 <=? n) && (n <=? 102) then Some (n - 87)
  else if (65 <=? n) && (n <=? 70) then Some (n - 55)
  else None.

Definition hex4 (a b c d : ascii) : option N :=
  match hex_val a, hex_val b, hex_val c, hex_val d with
  | Some x, Some y, Some z, Some w => Some (((x * 16 + y) * 16 + z) * 16 + w)
  | _, _, _, _ => None
  end.

Definition chars (l : list N) : string :=
  fold_right (fun n s => String (ascii_of_N n) s) EmptyString l.

(** [chr(cp)] as UTF-8; a lone surrogate gets the three bytes of its
    value. *)
Definition utf8 (cp : N) : string :=
  if cp <? 128 then chars [cp]
  else if cp <? 2048 then chars [192 + cp / 64; 128 + cp mod 64]
  else if cp <? 65536 then
    chars [224 + cp / 4096; 128 + (cp / 64) mod 64; 128 + cp mod 64]
  else
    chars [240 + cp / 262144; 128 + (cp / 4096) mod 64;
           128 + (cp / 64) mod 64; 128 + cp mod 64].

Definition unescape (c : ascii) : option ascii :=
  let n := code c in
  if (n =? 34) || (n =? 92) || (n =? 47) then Some c
  else if n =? 98 then Some (ascii_of_N 8)
  else if n =? 102 then Some (ascii_of_N 12)
  else if n =? 110 then Some (ascii_of_N 10)
  else if n =? 114 then Some (ascii_of_N 13)
  else if n =? 116 then Some (ascii_of_N 9)
  else None.

Definition prepend (p : string) (r : scan string) : scan string :=
  match r with
  | Got s rest pos => Got (p ++ s)%string rest pos
  | Bad m pos => Bad m pos
  | Deep => Deep
  end.

(** The code point of a surrogate pair, when [hi] and [lo] are the two
    halves of one. *)
Definition join_surrogates (hi lo : N) : option N :=
  if (55296 <=? hi) && (hi <=? 56319) && (56320 <=? lo) && (lo <=? 57343)
  then Some (65536 + (hi - 55296) * 1024 + (lo - 56320))
  else None.

Definition unterminated : string := "Unterminated string starting at".
Definition bad_u : string := "Invalid \uXXXX escape".

(** The C scanner's [scanstring], in strict mode: [s] starts after the
    opening quote, which is at position [begin]. *)
Fixpoint scanstring (s : string) (pos begin : nat) : scan string :=
  match s with
  | EmptyString => Bad unterminated begin
  | String c s1 =>
      if code c =? 34 then Got EmptyString s1 (S pos)
      else if code c =? 92 then
        match s1 with
        | EmptyString => Bad unterminated begin
        | String e s2 =>
            if code e =? 117 then
              match s2 with
              | String h1 (String h2 (String h3 (String h4 s6))) =>
                  match s6, hex4 h1 h2 h3 h4 with
                  | String b s7, Some cp =>
                      let lone (_ : unit) :=
                        prepend (utf8 cp) (scanstring s6 (pos + 6) begin) in
                      match s7 with
                      | String u (String k1 (String k2 (String k3
                          (String k4 s12)))) =>
                          match s12 with
                          | String _ _ =>
                              let pair :=
                                if (code b =? 92) && (code u =? 117) then
                                  match hex4 k1 k2 k3 k4 with
                                  | Some lo => join_surrogates cp lo
                                  | None => None
                                  end
                                else None in
                              match pair with
                              | Some full =>
                                  prepend (utf8 full)
                                    (scanstring s12 (pos + 12) begin)
                              | None => lone tt
                              end
                          | EmptyString => lone tt
                          end
                      | _ => lone tt
                      end
                  | _, _ => Bad bad_u (S pos)
                  end
              | _ => Bad bad_u (S pos)
              end
            else
              match unescape e with
              | Some ch =>
                  prepend (String ch EmptyString)
                    (scanstring s2 (pos + 2) begin)
              | None => Bad "Invalid \escape" pos
              end
        end
      else if code c <? 32 then Bad "Invalid control character at" pos
      else prepend (String c EmptyString) (scanstring s1 (step c pos) begin)
  end.

(** The leading decimal digits of [s]: their value after [acc], how many
    they are, and what follows them. *)
Fixpoint take_digits (s : string) (acc : Z) (count : nat)
  : Z * nat * string :=
  match s with
  | String c s' =>
      if is_digit c then take_digits s' (acc * 10 + digit_val c)%Z (S count)
      else (acc, count, s)
  | EmptyString => (acc, count, s)
  end.

(** The integer part of a number: [0], or digits that do not start with
    [0]. *)
Definition integer_part (s : string) : option (Z * nat * string) :=
  match s with
  | String c s' =>
      if code c =? 48 then Some (0%Z, 1%nat, s')
      else if is_digit c then Some (take_digits s 0%Z 0%nat)
      else None
  | EmptyString => None
  end.

(** The fraction [.digits], when there is one: the digits after [m], their
    count, and what follows. *)
Definition fraction (s : string) (m : Z) : option (Z * nat * string) :=
  match s with
  | String dot (String d _ as s') =>
      if (code dot =? 46) && is_digit d then Some (take_digits s' m 0%nat)
      else None
  | _ => None
  end.

(** The exponent [e], [E] with an optional sign and digits, when there is
    one: its value, its length in characters, and what follows. *)
Definition exponent (s : string) : option (Z * nat * string) :=
  match s with
  | String e s1 =>
      if (code e =? 101) || (code e =? 69) then
        let '(neg, signed, s2) := take_sign true s1 in
        match take_digits s2 0%Z 0%nat with
        | (_, O, _) => None
        | (v, n, rest) =>
            Some (if neg then (- v)%Z else v, (1 + signed + n)%nat, rest)
        end
      else None
  | EmptyString => None
  end.

(** A number at the head of [s]: an [int] when it has neither fraction nor
    exponent (below 4300 digits), a [float] otherwise. *)
Definition scan_number (s : string) (pos : nat) : option (scan value) :=
  let '(neg, signed, s0) := take_sign false s in
  let p0 := (pos + signed)%nat in
  let sign (z : Z) := if neg then (- z)%Z else z in
  match integer_part s0 with
  | None => None
  | Some (i, ni, s1) =>
      let '(m, nf, s2, is_float) :=
        match fraction s1 i with
        | Some (m, nf, s2) => (m, nf, s2, true)
        | None => (i, 0%nat, s1, false)
        end in
      let p2 := (p0 + ni + (if is_float then S nf else 0))%nat in
      match exponent s2 with
      | Some (e, ne, s3) =>
          Some (Got (VFloat (FDec (sign m) (e - Z.of_nat nf))) s3 (p2 + ne)%nat)
      | None =>
          if is_float
          then Some (Got (VFloat (FDec (sign m) (- Z.of_nat nf))) s2 p2)
          else Some (Got (VInt (sign i)) s2 p2)
      end
  end.

(** [dict[key] = v]: a key already present keeps its place. *)
Fixpoint dict_set (d : list (string * value)) (key : string) (v : value)
  : list (string * value) :=
  match d with
  | [] => [(key, v)]
  | (k, x) :: rest =>
      if (k =? key)%string then (k, v) :: rest
      else (k, x) :: dict_set rest key v
  end.

Definition expecting_value : string := "Expecting value".
Definition expecting_comma : string := "Expecting ',' delimiter".
Definition expecting_name : string :=
  "Expecting property name enclosed in double quotes".

(** Whether [s] starts with the character [c]. *)
Definition starts_with (c : ascii) (s : string) : bool :=
  match s with
  | String d _ => Ascii.eqb c d
  | EmptyString => false
  end.

(** The C scanner's [scan_once], with the loops of [_parse_object] and
    [_parse_array] as [scan_members] and [scan_elements]; both start
    where a key, or an element, is expected.  The three functions call each
    other on [fuel]; twice the length of the text and one is enough of it
    ([scan_fuel] below). *)
Fixpoint scan_once (fuel : nat) (s : string) (pos : nat) : scan value :=
  match fuel with
  | O => Deep
  | S fuel' =>
      match s with
      | EmptyString => Bad expecting_value pos
      | String c s1 =>
          if code c =? 34 then
            match scanstring s1 (S pos) pos with
            | Got str rest p => Got (VStr str) rest p
            | Bad m p => Bad m p
            | Deep => Deep
            end
          else if code c =? 123 then
            let '(s2, p) := skip_ws s1 (S pos) in
            if starts_with "}" s2 then Got (VDict []) (drop 1 s2) (S p)
            else scan_members fuel' s2 p []
          else if code c =? 91 then
            let '(s2, p) := skip_ws s1 (S pos) in
            if starts_with "]" s2 then Got (VList []) (drop 1 s2) (S p)
            else scan_elements fuel' s2 p []
          else if prefix "null" s then Got VNone (drop 4 s) (pos + 4)
          else if prefix "true" s then Got (VBool true) (drop 4 s) (pos + 4)
          else if prefix "false" s then Got (VBool false) (drop 5 s) (pos + 5)
          else if prefix "NaN" s then Got (VFloat FNaN) (drop 3 s) (pos + 3)
          else if prefix "Infinity" s then
            Got (VFloat (FInf false)) (drop 8 s) (pos + 8)
          else if prefix "-Infinity" s then
            Got (VFloat (FInf true)) (drop 9 s) (pos + 9)
          else
            match scan_number s pos with
            | Some r => r
            | None => Bad expecting_value pos
            end
      end
  end

with scan_members (fuel : nat) (s : string) (pos : nat)
       (acc : list (string * value)) : scan value :=
  match fuel with
  | O => Deep
  | S fuel' =>
      if starts_with dquote s then
        match scanstring (drop 1 s) (S pos) pos with
        | Bad m p => Bad m p
        | Deep => Deep
        | Got key s2 p2 =>
            let '(s3, p3) := skip_ws s2 p2 in
            if starts_with ":" s3 then
              let '(s4, p4) := skip_ws (drop 1 s3) (S p3) in
              match scan_once fuel' s4 p4 with
              | Bad m p => Bad m p
              | Deep => Deep
              | Got v s5 p5 =>
                  let acc' := dict_set acc key v in
                  let '(s6, p6) := skip_ws s5 p5 in
                  if starts_with "}" s6 then
                    Got (VDict acc') (drop 1 s6) (S p6)
                  else if starts_with "," s6 then
                    let '(s7, p7) := skip_ws (drop 1 s6) (S p6) in
                    scan_members fuel' s7 p7 acc'
                  else Bad expecting_comma p6
              end
            else Bad "Expecting ':' delimiter" p3
        end
      else Bad expecting_name pos
  end

with scan_elements (fuel : nat) (s : string) (pos : nat)
       (acc : list value) : scan value :=
  match fuel with
  | O => Deep
  | S fuel' =>
      match scan_once fuel' s pos with
      | Bad m p => Bad m p
      | Deep => Deep
      | Got v s1 p1 =>
          let acc' := (acc ++ [v])%list in
          let '(s2, p2) := skip_ws s1 p1 in
          if starts_with "]" s2 then Got (VList acc') (drop 1 s2) (S p2)
          else if starts_with "," s2 then
            let '(s3, p3) := skip_ws (drop 1 s2) (S p2) in
            scan_elements fuel' s3 p3 acc'
          else Bad expecting_comma p2
      end
  end.

(** The line and column of a position: [line] counts the newlines before
    it, [col] the characters since the last of them. *)
Fixpoint line_col (doc : string) (pos line col : nat) : nat * nat :=
  match pos, doc with
  | S pos', String c doc' =>
      if is_cont (code c) then line_col doc' pos line col
      else if code c =? 10 then line_col doc' pos' (S line) 1%nat
      else line_col doc' pos' line (S col)
  | _, _ => (line, col)
  end.

Definition json_decode_error (doc msg : string) (pos : nat) : exn :=
  let '(line, col) := line_col doc pos 1%nat 1%nat in
  mk_exn "JSONDecodeError"
    (msg ++ ": line " ++ str_of_nat line ++ " column " ++ str_of_nat col
         ++ " (char " ++ str_of_nat pos ++ ")")%string.

(** The byte order mark, U+FEFF, as UTF-8. *)
Definition bom : string := chars [239; 187; 191].

(** [json.loads(doc)] for a [str].  The limit Python puts on the nesting of
    arrays and objects is not modelled: [Deep] stands for it, and does not
    occur ([json_loads_fuel] below). *)
Definition json_loads (doc : string) : result value :=
  if prefix bom doc then
    Raise (json_decode_error doc
             "Unexpected UTF-8 BOM (decode using utf-8-sig)" 0)
  else
    let '(s, p) := skip_ws doc 0%nat in
    match scan_once (2 * String.length doc + 1) s p with
    | Bad m pos => Raise (json_decode_error doc m pos)
    | Deep =>
        Raise (mk_exn "RecursionError" "maximum recursion depth exceeded")
    | Got v rest p1 =>
        match skip_ws rest p1 with
        | (EmptyString, _) => Ok v
        | (_, p2) => Raise (json_decode_error doc "Extra data" p2)
        end
    end.

(** *** Engines *)

(** An engine that refuses a text that is not a [str], as
    [edge_tts.Communicate] does, and otherwise streams a fixed script. *)
Definition scripted_engine (script : stream) (text : value) (voice : string)
  : result stream :=
  match text with
  | VStr _ => Ok script
  | _ => Raise (mk_exn "TypeError" "text must be str")
  end.

Definition runtime_with (engine : value -> string -> result stream) : runtime :=
  mk_runtime py_int bytes_decode json_loads json_dumps str_encode engine.

End Reference.

(** ** Notions used in the properties *)

(** The trace of a successful synthesis: lines 23-24 and 44-47. *)
Definition success_trace (audio : bytes) : list event :=
  [ SendResponse 200;
    SendHeader "Access-Control-Allow-Origin" "*";
    SendHeader "Content-Type" "audio/mpeg";
    SendHeader "Content-Length" (str_of_nat (List.length audio));
    EndHeaders;
    Write audio ].

(** A JSON response: lines 23-24 followed by lines 35-37 or 50-53. *)
Definition json_response (payload : bytes) : response :=
  mk_response 200
    [ ("Access-Control-Allow-Origin", "*");
      ("Content-Type", "application/json") ]
    payload.

(** The bytes the audio chunks of a list carry, in order. *)
Definition audio_of (cs : list chunk) : bytes :=
  List.concat (map data (filter is_audio cs)).

(** The value of [generate_audio(text)], apart from its effect. *)
Definition synthesis (rt : runtime) (text : value) : result bytes :=
  match Communicate rt text VOICE with
  | Raise e => Raise e
  | Ok s => consume s []
  end.

(** An exception [e] is raised while the request is read, decoded and
    parsed, while [text] is taken from it, or by the synthesis (steps 1
    to 4 of the POST operation). *)
Inductive raised_before_response (rt : runtime) (req : request) (e : exn)
  : Prop :=
| raised_by_int :
    content_length rt req = Raise e ->
    raised_before_response rt req e
| raised_by_read n :
    content_length rt req = Ok n ->
    rfile_read req n = Raise e ->
    raised_before_response rt req e
| raised_by_decode n raw :
    content_length rt req = Ok n ->
    rfile_read req n = Ok raw ->
    bytes_decode rt raw = Raise e ->
    raised_before_response rt req e
| raised_by_loads n raw text :
    content_length rt req = Ok n ->
    rfile_read req n = Ok raw ->
    bytes_decode rt raw = Ok text ->
    json_loads rt text = Raise e ->
    raised_before_response rt req e
| raised_by_get data :
    read_json rt req = Ok data ->
    py_get data "text" (VStr "") = Raise e ->
    raised_before_response rt req e
| raised_by_synthesis data text :
    read_json rt req = Ok data ->
    py_get data "text" (VStr "") = Ok text ->
    truthy text = true ->
    synthesis rt text = Raise e ->
    raised_before_response rt req e.

(** The connection on which nothing fails, and the one on which only the
    [k]-th response call fails, with [e]. *)
Definition healthy : connection := fun _ => None.

Definition broken_at (k : nat) (e : exn) : connection :=
  fun n => if Nat.eqb n k then Some e else None.

(** ** Sample requests, for the reference runtime *)

Module Samples.

Definition post (content_length : string) (payload : string) : request :=
  mk_request [("Content-Length", content_length)]
    (list_byte_of_string payload) None.

(** [{"text": "Hello world"}] *)
Definition hello : request :=
  post "23" ("{" ++ quoted "text" ++ ": " ++ quoted "Hello world" ++ "}").

(** [{"text": ""}] *)
Definition empty_text : request :=
  post "12" ("{" ++ quoted "text" ++ ": " ++ quoted "" ++ "}").

(** [{"text": 0}] *)
Definition zero_text : request :=
  post "11" ("{" ++ quoted "text" ++ ": 0}").

(** [{"text": [1]}] *)
Definition list_text : request :=
  post "13" ("{" ++ quoted "text" ++ ": [1]}").

(** [not json] *)
Definition not_json : request := post "8" "not json".

(** A request without [Content-Length]. *)
Definition no_length : request :=
  mk_request [("Host", "localhost")]
    (list_byte_of_string ("{" ++ quoted "text" ++ ": " ++ quoted "Hi" ++ "}"))
    None.

Definition audio1 : chunk := mk_chunk "audio" [x49; x44; x33].
Definition boundary : chunk := mk_chunk "WordBoundary" [x2a].
Definition audio2 : chunk := mk_chunk "audio" [xff; xf3].

(** A stream of two audio chunks around a word boundary. *)
Definition script : list chunk := [audio1; boundary; audio2].

Definition speaking : runtime :=
  Reference.runtime_with (Reference.scripted_engine (stream_of_list script)).

(** An engine whose stream ends without any audio. *)
Definition silent : runtime :=
  Reference.runtime_with (Reference.scripted_engine Exhausted).

(** An engine whose stream breaks after the first chunk. *)
Definition closed : exn := mk_exn "WebSocketError" "Connection closed".

Definition failing : runtime :=
  Reference.runtime_with
    (Reference.scripted_engine (Yield audio1 (Fails closed))).

Definition broken_pipe : exn :=
  mk_exn "BrokenPipeError" "[Errno 32] Broken pipe".

End Samples.

(** ** Notions used in the further properties *)

(** The stream that yields the chunks of [cs] and then goes on as [s]. *)
Fixpoint stream_app (cs : list chunk) (s : stream) : stream :=
  match cs with
  | [] => s
  | c :: cs' => Yield c (stream_app cs' s)
  end.

(** The number of bytes the audio chunks of a list carry. *)
Definition audio_size (cs : list chunk) : nat :=
  list_sum (map (fun c => List.length (data c)) (filter is_audio cs)).

(** A decimal numeral read back as a number, the way a client reads the
    value of [Content-Length]. *)
Definition nat_of_str (s : string) : option nat :=
  option_map Nat.of_uint (DecimalString.NilEmpty.uint_of_string s).

(** The trace of a JSON answer: lines 23-24, then 35-37 or 50-53. *)
Definition json_trace (payload : bytes) : list event :=
  [ SendResponse 200;
    SendHeader "Access-Control-Allow-Origin" "*";
    SendHeader "Content-Type" "application/json";
    EndHeaders;
    Write payload ].

(** The trace of [do_OPTIONS], lines 56-60. *)
Definition options_trace : list event :=
  [ SendResponse 200;
    SendHeader "Access-Control-Allow-Origin" "*";
    SendHeader "Access-Control-Allow-Methods" "POST, OPTIONS";
    SendHeader "Access-Control-Allow-Headers" "Content-Type";
    EndHeaders ].

(** The message of the [AttributeError] that [data.get] raises on a value
    that is not a dict. *)
Definition no_get (data : value) : exn :=
  mk_exn "AttributeError"
    ("'" ++ type_name data ++ "' object has no attribute 'get'").

(** The connection as it is from its [k]-th response call on. *)
Definition shift (k : nat) (conn : connection) : connection :=
  fun n => conn (k + n)%nat.

(** The state [w] followed by what a run started from [fresh] did. *)
Definition after (w w' : world) : world :=
  mk_world (sent w ++ sent w') (attempts w + attempts w')
    (engine_calls w ++ engine_calls w').

(** The outcome of a run started from [fresh], replayed after [w]. *)
Definition frame {A} (w : world) (run : result A * world)
  : result A * world :=
  (fst run, after w (snd run)).

(** A computation that only adds to the state it finds: started from [w],
    it does what it does from [fresh] on the rest of the connection. *)
Definition appends {A} (m : connection -> M A) : Prop :=
  forall (conn conn' : connection) (w : world),
    (forall n, conn' n = conn (attempts w + n)%nat) ->
    m conn w = frame w (m conn' fresh).

(** More sample requests. *)
Module MoreSamples.

(** The body [[1, 2]]: JSON, but not an object. *)
Definition array_body : request := Samples.post "6" "[1, 2]".


(** A state in which an OPTIONS request was answered already. *)
Definition after_options : world := mk_world options_trace 5 [].

End MoreSamples.

(** * Properties *)

(** ** The monad on a reliable connection *)

Section Steps.

Variable conn : connection.

Lemma perform_reliable (ev : event) (w : world) :
  reliable conn ->
  perform conn ev w
  = (Ok tt, mk_world (sent w ++ [ev]) (S (attempts w)) (engine_calls w)).
Proof.
  intros H. unfold perform. now rewrite H.
Qed.

End Steps.

(** ** The loop of [generate_audio] *)

Lemma consume_stream_of_list (cs : list chunk) (acc : bytes) :
  consume (stream_of_list cs) acc = Ok (acc ++ audio_of cs)%list.
Proof.
  revert acc. induction cs as [| c cs IH]; intros acc; simpl.
  - unfold audio_of. simpl. now rewrite app_nil_r.
  - unfold audio_of in *. simpl. destruct (is_audio c); simpl.
    + rewrite IH. now rewrite <- app_assoc.
    + apply IH.
Qed.

(** A stream on which the loop ends normally is a finite list of chunks. *)
Lemma consume_ok_inv (s : stream) (acc out : bytes) :
  consume s acc = Ok out ->
  exists cs, s = stream_of_list cs /\ out = (acc ++ audio_of cs)%list.
Proof.
  revert acc. induction s as [| c rest IH | e]; intros acc H; simpl in H.
  - exists []. inversion H. unfold audio_of. simpl. now rewrite app_nil_r.
  - destruct (is_audio c) eqn:E.
    + destruct (IH _ H) as (cs & -> & ->). exists (c :: cs). split; auto.
      unfold audio_of. simpl. rewrite E. simpl. now rewrite <- app_assoc.
    + destruct (IH _ H) as (cs & -> & ->). exists (c :: cs). split; auto.
      unfold audio_of. simpl. now rewrite E.
  - discriminate.
Qed.

Lemma audio_of_nonempty (cs : list chunk) :
  audio_of cs <> [] <->
  Exists (fun c => is_audio c = true /\ data c <> []) cs.
Proof.
  unfold audio_of. induction cs as [| c cs IH]; simpl.
  - split; [congruence | intros H; inversion H].
  - destruct (is_audio c) eqn:E; simpl.
    + split.
      * intros H. destruct (data c) eqn:D.
        -- simpl in H. apply Exists_cons_tl. now apply IH.
        -- apply Exists_cons_hd. split; auto. rewrite D. discriminate.
      * intros H. inversion H as [? ? [_ Hd] | ? ? Ht]; subst.
        -- destruct (data c); [congruence | discriminate].
        -- apply IH in Ht. intros Happ. apply app_eq_nil in Happ. tauto.
    + rewrite IH. split.
      * intros H. now apply Exists_cons_tl.
      * intros H. inversion H as [? ? [Ha _] | ? ? Ht]; subst; auto. congruence.
Qed.

Lemma generate_audio_spec (rt : runtime) (text : value) (w : world) :
  generate_audio rt text w
  = (synthesis rt text,
     mk_world (sent w) (attempts w) (engine_calls w ++ [(text, VOICE)])).
Proof.
  unfold generate_audio, synthesis. now destruct (Communicate rt text VOICE).
Qed.

(** C1.  When the engine's stream for [text] is a finite list of chunks,
    [generate_audio] returns the concatenation, in arrival order, of the
    [data] of the chunks whose [type] is ["audio"]; the other chunks add
    nothing: dropping them from the stream leaves the buffer as it is. *)
Theorem generate_audio_concatenates_audio_chunks
    (rt : runtime) (text : value) (cs : list chunk) (w : world) :
  Communicate rt text VOICE = Ok (stream_of_list cs) ->
  fst (generate_audio rt text w)
  = Ok (List.concat (map data (filter is_audio cs)))
  /\ consume (stream_of_list (filter is_audio cs)) []
     = consume (stream_of_list cs) [].
Proof.
  intros H. rewrite generate_audio_spec. unfold synthesis. rewrite H. simpl.
  rewrite !consume_stream_of_list. simpl. split; [reflexivity |].
  unfold audio_of. f_equal. f_equal. f_equal. clear H.
  induction cs as [| c cs IH]; simpl; auto.
  destruct (is_audio c) eqn:E; simpl; rewrite ?E, IH; reflexivity.
Qed.

Lemma generate_audio_concatenates_audio_chunks_witness :
  Communicate Samples.speaking (VStr "Hello world") VOICE
  = Ok (stream_of_list Samples.script)
  /\ fst (generate_audio Samples.speaking (VStr "Hello world") fresh)
     = Ok [x49; x44; x33; xff; xf3].
Proof.
  split; [reflexivity |].
  apply (generate_audio_concatenates_audio_chunks
           Samples.speaking (VStr "Hello world") Samples.script fresh).
  reflexivity.
Defined.

(** ** Running the handler *)

Ltac unfold_handler :=
  unfold do_POST, do_OPTIONS, on_exception, try_except, bind, lift,
    send_response, send_header, end_headers, wfile_write.

(** Runs a handler as far as it goes on a connection that [H] says is
    reliable. *)
Ltac run_reliable H :=
  unfold_handler;
  repeat (first
            [ rewrite (perform_reliable _ _ _ H)
            | rewrite generate_audio_spec
            | progress simpl ]).

(** Runs a handler on an arbitrary connection, by cases on every response
    call. *)
Ltac run_any conn :=
  unfold_handler; unfold perform; simpl;
  repeat (match goal with
          | |- context [conn ?n] => destruct (conn n); simpl
          | |- _ => rewrite generate_audio_spec; simpl
          end).

(** The bytes of line 37, one by one: [{"error": "No text provided"}]. *)
Lemma no_text_body_bytes :
  no_text_body
  = [ x7b; x22; x65; x72; x72; x6f; x72; x22; x3a; x20; x22; x4e; x6f; x20;
      x74; x65; x78; x74; x20; x70; x72; x6f; x76; x69; x64; x65; x64; x22;
      x7d ].
Proof. reflexivity. Qed.

Section Post.

Variable rt : runtime.
Variable conn : connection.
Variable req : request.

(** The empty-text branch, lines 34-38. *)
Lemma do_POST_falsy (data text : value) :
  read_json rt req = Ok data ->
  py_get data "text" (VStr "") = Ok text ->
  truthy text = false ->
  reliable conn ->
  do_POST rt conn req fresh
  = (Ok tt,
     mk_world
       [ SendResponse 200;
         SendHeader "Access-Control-Allow-Origin" "*";
         SendHeader "Content-Type" "application/json";
         EndHeaders;
         Write no_text_body ] 5 []).
Proof.
  intros Hj Hg Ht H. run_reliable H. rewrite Hj. simpl. rewrite Hg. simpl.
  rewrite Ht. run_reliable H. reflexivity.
Qed.

(** The synthesis branch, lines 41-47. *)
Lemma do_POST_audio (data text : value) (audio : bytes) :
  read_json rt req = Ok data ->
  py_get data "text" (VStr "") = Ok text ->
  truthy text = true ->
  synthesis rt text = Ok audio ->
  reliable conn ->
  do_POST rt conn req fresh
  = (Ok tt, mk_world (success_trace audio) 6 [(text, VOICE)]).
Proof.
  intros Hj Hg Ht Hs H. run_reliable H. rewrite Hj. simpl. rewrite Hg. simpl.
  rewrite Ht. run_reliable H. rewrite Hs. run_reliable H. reflexivity.
Qed.

(** The [except] block, lines 49-53, after a failure before any of the
    response of the [try] block was sent. *)
Lemma do_POST_raised (e : exn) :
  raised_before_response rt req e ->
  reliable conn ->
  fst (do_POST rt conn req fresh) = Ok tt
  /\ sent (snd (do_POST rt conn req fresh))
     = [ SendResponse 200;
         SendHeader "Access-Control-Allow-Origin" "*";
         SendHeader "Content-Type" "application/json";
         EndHeaders;
         Write (error_body rt e) ].
Proof.
  intros Hr H.
  destruct Hr as [Hi | n Hi Hrd | n raw Hi Hrd Hd | n raw text Hi Hrd Hd Hl
                 | data Hj Hg | data text Hj Hg Ht Hs].
  1-4: assert (Hj : read_json rt req = Raise e)
         by (unfold read_json; rewrite Hi; try rewrite Hrd; try rewrite Hd;
             auto).
  1-4: run_reliable H; rewrite Hj; run_reliable H; split; reflexivity.
  - run_reliable H. rewrite Hj. simpl. rewrite Hg. run_reliable H.
    split; reflexivity.
  - run_reliable H. rewrite Hj. simpl. rewrite Hg. simpl. rewrite Ht.
    run_reliable H. rewrite Hs. run_reliable H. split; reflexivity.
Qed.

(** The outcome of steps 1 to 4 is one of three. *)
Lemma before_response_cases :
  (exists e, raised_before_response rt req e)
  \/ (exists data text,
        read_json rt req = Ok data
        /\ py_get data "text" (VStr "") = Ok text
        /\ truthy text = false)
  \/ (exists data text audio,
        read_json rt req = Ok data
        /\ py_get data "text" (VStr "") = Ok text
        /\ truthy text = true
        /\ synthesis rt text = Ok audio).
Proof.
  destruct (read_json rt req) as [data | e] eqn:Hj.
  - destruct (py_get data "text" (VStr "")) as [text | e] eqn:Hg.
    + destruct (truthy text) eqn:Ht.
      * destruct (synthesis rt text) as [audio | e] eqn:Hs.
        -- right. right. now exists data, text, audio.
        -- left. exists e. now apply (raised_by_synthesis _ _ _ data text).
      * right. left. now exists data, text.
    + left. exists e. now apply (raised_by_get _ _ _ data).
  - left. exists e. unfold read_json in Hj.
    destruct (content_length rt req) as [n | e1] eqn:Hi.
    + destruct (rfile_read req n) as [raw | e2] eqn:Hrd.
      * destruct (bytes_decode rt raw) as [text | e3] eqn:Hd.
        -- now apply (raised_by_loads _ _ _ n raw text).
        -- inversion Hj; subst. now apply (raised_by_decode _ _ _ n raw).
      * inversion Hj; subst. now apply (raised_by_read _ _ _ n).
    + inversion Hj; subst. now apply raised_by_int.
Qed.

(** The engine is called at most once, with [VOICE], and only for a
    truthy [text]; this holds whatever the connection does. *)
Lemma do_POST_engine_calls :
  engine_calls (snd (do_POST rt conn req fresh)) = []
  \/ exists data text,
       read_json rt req = Ok data
       /\ py_get data "text" (VStr "") = Ok text
       /\ truthy text = true
       /\ engine_calls (snd (do_POST rt conn req fresh)) = [(text, VOICE)].
Proof.
  destruct (read_json rt req) as [data | e] eqn:Hj.
  2: { left. run_any conn; rewrite ?Hj; run_any conn; reflexivity. }
  destruct (py_get data "text" (VStr "")) as [text | e] eqn:Hg.
  2: { left. run_any conn; rewrite ?Hj; simpl; rewrite ?Hg; run_any conn;
       reflexivity. }
  destruct (truthy text) eqn:Ht.
  - destruct (conn 0%nat) eqn:H0.
    { left. unfold_handler. unfold perform. simpl. rewrite H0. reflexivity. }
    destruct (conn 1%nat) eqn:H1.
    { left. unfold_handler. unfold perform. simpl. rewrite H0. simpl.
      rewrite H1. reflexivity. }
    right. exists data, text. repeat split; auto.
    unfold_handler. unfold perform. simpl. rewrite H0. simpl. rewrite H1.
    simpl. rewrite Hj. simpl. rewrite Hg. simpl. rewrite Ht. simpl.
    rewrite generate_audio_spec. simpl.
    destruct (synthesis rt text); simpl;
      repeat (match goal with
              | |- context [conn ?n] => destruct (conn n); simpl
              end); reflexivity.
  - left. run_any conn; rewrite ?Hj; simpl; rewrite ?Hg; simpl; rewrite ?Ht;
      run_any conn; reflexivity.
Qed.

(** Whatever happens, the only status the handler sends is 200. *)
Lemma do_POST_statuses :
  Forall (fun c => c = 200) (statuses (sent (snd (do_POST rt conn req fresh)))).
Proof.
  unfold_handler. unfold perform. simpl.
  destruct (conn 0%nat); simpl; [constructor |].
  destruct (conn 1%nat); simpl; [repeat constructor |].
  destruct (read_json rt req) as [data | e]; simpl.
  2: { repeat (match goal with
               | |- context [conn ?n] => destruct (conn n); simpl
               end); repeat constructor. }
  destruct (py_get data "text" (VStr "")) as [text | e]; simpl.
  2: { repeat (match goal with
               | |- context [conn ?n] => destruct (conn n); simpl
               end); repeat constructor. }
  destruct (truthy text); simpl.
  - rewrite generate_audio_spec. simpl.
    destruct (synthesis rt text); simpl;
      repeat (match goal with
              | |- context [conn ?n] => destruct (conn n); simpl
              end); repeat constructor.
  - repeat (match goal with
            | |- context [conn ?n] => destruct (conn n); simpl
            end); repeat constructor.
Qed.

End Post.

(** ** The success response *)

Lemma response_of_success_trace (audio : bytes) :
  response_of (success_trace audio)
  = Some (mk_response 200
            [ ("Access-Control-Allow-Origin", "*");
              ("Content-Type", "audio/mpeg");
              ("Content-Length", str_of_nat (List.length audio)) ]
            audio).
Proof.
  unfold success_trace, response_of. simpl. now rewrite app_nil_r.
Qed.

Lemma response_of_json (payload : bytes) :
  response_of
    [ SendResponse 200;
      SendHeader "Access-Control-Allow-Origin" "*";
      SendHeader "Content-Type" "application/json";
      EndHeaders;
      Write payload ]
  = Some (json_response payload).
Proof.
  unfold response_of, json_response. simpl. now rewrite app_nil_r.
Qed.

Lemma py_get_text (d : list (string * value)) (v : value) :
  dict_get d "text" = Some v -> py_get (VDict d) "text" (VStr "") = Ok v.
Proof.
  intros H. simpl. now rewrite H.
Qed.

(** C2, amended.  For a request whose body is a JSON object with a truthy
    [text], whose synthesis returns [audio] without exception, and whose
    response is written without failure: the response has status 200, the
    headers [Content-Type: audio/mpeg] and [Content-Length] set to the byte
    length of [audio], and [audio] as body.  The engine's stream was a
    finite list of chunks, and the body is non-empty exactly when one of
    its audio chunks carried at least one byte. *)
Theorem post_success_response
    (rt : runtime) (conn : connection) (req : request)
    (d : list (string * value)) (text : value) (audio : bytes) :
  read_json rt req = Ok (VDict d) ->
  dict_get d "text" = Some text ->
  truthy text = true ->
  synthesis rt text = Ok audio ->
  reliable conn ->
  fst (do_POST rt conn req fresh) = Ok tt
  /\ response_of (sent (snd (do_POST rt conn req fresh)))
     = Some (mk_response 200
               [ ("Access-Control-Allow-Origin", "*");
                 ("Content-Type", "audio/mpeg");
                 ("Content-Length", str_of_nat (List.length audio)) ]
               audio)
  /\ exists cs,
       Communicate rt text VOICE = Ok (stream_of_list cs)
       /\ audio = List.concat (map data (filter is_audio cs))
       /\ (audio <> []
           <-> Exists (fun c => is_audio c = true /\ data c <> []) cs).
Proof.
  intros Hj Hd Ht Hs H.
  rewrite (do_POST_audio rt conn req (VDict d) text audio Hj
             (py_get_text d text Hd) Ht Hs H).
  split; [reflexivity |]. split; [apply response_of_success_trace |].
  unfold synthesis in Hs.
  destruct (Communicate rt text VOICE) as [s | e]; [| discriminate].
  destruct (consume_ok_inv s [] audio Hs) as (cs & -> & ->).
  exists cs. split; [reflexivity |]. split; [reflexivity |].
  apply audio_of_nonempty.
Qed.

Lemma post_success_response_witness :
  response_of
    (sent (snd (do_POST Samples.speaking healthy Samples.hello fresh)))
  = Some (mk_response 200
            [ ("Access-Control-Allow-Origin", "*");
              ("Content-Type", "audio/mpeg");
              ("Content-Length", "5") ]
            [x49; x44; x33; xff; xf3]).
Proof.
  apply (post_success_response Samples.speaking healthy Samples.hello
           [("text", VStr "Hello world")] (VStr "Hello world")
           [x49; x44; x33; xff; xf3]);
    try reflexivity.
  intros n. reflexivity.
Defined.

(** C2 as stated fails: with an engine whose stream ends without audio, the
    request [{"text": "Hello world"}] gets [Content-Length: 0] and an empty
    body. *)
Lemma post_success_body_may_be_empty :
  ~ (forall (rt : runtime) (conn : connection) (req : request)
            (d : list (string * value)) (text : value) (audio : bytes),
        read_json rt req = Ok (VDict d) ->
        dict_get d "text" = Some text ->
        truthy text = true ->
        synthesis rt text = Ok audio ->
        reliable conn ->
        exists r,
          response_of (sent (snd (do_POST rt conn req fresh))) = Some r
          /\ In ("Content-Type", "audio/mpeg") (response_headers r)
          /\ In ("Content-Length", str_of_nat (List.length audio))
                (response_headers r)
          /\ body r = audio
          /\ body r <> []).
Proof.
  intros claim.
  destruct (claim Samples.silent healthy Samples.hello
              [("text", VStr "Hello world")] (VStr "Hello world") [])
    as (r & Hr & _ & _ & _ & Hne);
    try reflexivity.
  - intros n. reflexivity.
  - vm_compute in Hr. inversion Hr; subst. now apply Hne.
Qed.

(** ** Requests without text *)

Section NoText.

Variable rt : runtime.
Variable conn : connection.
Variable req : request.

(** A falsy [text] never reaches the engine, and on a reliable connection
    gets the fixed error body. *)
Lemma falsy_text_response (data text : value) :
  read_json rt req = Ok data ->
  py_get data "text" (VStr "") = Ok text ->
  truthy text = false ->
  engine_calls (snd (do_POST rt conn req fresh)) = []
  /\ (reliable conn ->
      fst (do_POST rt conn req fresh) = Ok tt
      /\ response_of (sent (snd (do_POST rt conn req fresh)))
         = Some (json_response no_text_body)).
Proof.
  intros Hj Hg Ht. split.
  - destruct (do_POST_engine_calls rt conn req)
      as [H | (data' & text' & Hj' & Hg' & Ht' & _)]; auto.
    rewrite Hj in Hj'. inversion Hj'; subst. rewrite Hg in Hg'.
    inversion Hg'; subst. congruence.
  - intros H. rewrite (do_POST_falsy rt conn req data text Hj Hg Ht H).
    split; [reflexivity | apply response_of_json].
Qed.

End NoText.

(** C3.  When the body is a JSON object in which [text] is absent or is
    the empty string, the engine is not called, and the response has
    [Content-Type: application/json] and a body of exactly the 29 bytes
    [{"error": "No text provided"}]: an opening brace (7b), [error] between
    double quotes (22), a colon (3a), a blank (20), [No text provided]
    between double quotes, and a closing brace (7d). *)
Theorem post_without_text
    (rt : runtime) (conn : connection) (req : request)
    (d : list (string * value)) :
  read_json rt req = Ok (VDict d) ->
  dict_get d "text" = None \/ dict_get d "text" = Some (VStr "") ->
  engine_calls (snd (do_POST rt conn req fresh)) = []
  /\ (reliable conn ->
      fst (do_POST rt conn req fresh) = Ok tt
      /\ response_of (sent (snd (do_POST rt conn req fresh)))
         = Some (mk_response 200
                   [ ("Access-Control-Allow-Origin", "*");
                     ("Content-Type", "application/json") ]
                   [ x7b;
                     x22; x65; x72; x72; x6f; x72; x22;
                     x3a; x20;
                     x22; x4e; x6f; x20; x74; x65; x78; x74; x20;
                     x70; x72; x6f; x76; x69; x64; x65; x64; x22;
                     x7d ])).
Proof.
  intros Hj Hd.
  assert (Hg : py_get (VDict d) "text" (VStr "") = Ok (VStr ""))
    by (simpl; destruct Hd as [-> | ->]; reflexivity).
  destruct (falsy_text_response rt conn req (VDict d) (VStr "") Hj Hg
              eq_refl) as [Hcalls Hresp].
  split; [exact Hcalls |]. intros H. destruct (Hresp H) as [Hok Hbody].
  split; [exact Hok |]. rewrite Hbody. reflexivity.
Qed.

Lemma post_without_text_witness :
  engine_calls (snd (do_POST Samples.speaking healthy Samples.empty_text fresh))
  = []
  /\ response_of
       (sent (snd (do_POST Samples.speaking healthy Samples.empty_text fresh)))
     = Some (mk_response 200
               [ ("Access-Control-Allow-Origin", "*");
                 ("Content-Type", "application/json") ]
               [ x7b;
                 x22; x65; x72; x72; x6f; x72; x22;
                 x3a; x20;
                 x22; x4e; x6f; x20; x74; x65; x78; x74; x20;
                 x70; x72; x6f; x76; x69; x64; x65; x64; x22;
                 x7d ])
  /\ string_of_list_byte
       [ x7b;
         x22; x65; x72; x72; x6f; x72; x22;
         x3a; x20;
         x22; x4e; x6f; x20; x74; x65; x78; x74; x20;
         x70; x72; x6f; x76; x69; x64; x65; x64; x22;
         x7d ]
     = String "{"
         (String dquote
            ("error"
               ++ String dquote
                    (": "
                       ++ String dquote
                            ("No text provided"
                               ++ String dquote "}")))).
Proof.
  destruct (post_without_text Samples.speaking healthy Samples.empty_text
              [("text", VStr "")]) as [Hcalls Hresp].
  - reflexivity.
  - right. reflexivity.
  - split; [exact Hcalls |]. split; [| reflexivity].
    apply Hresp. intros n. reflexivity.
Defined.

(** C9.  [None], [False], [0], the empty list and the empty dict are falsy;
    a [text] of any falsy value gets the [No text provided] body and no
    call of the engine, and a truthy [text], string or not, is passed to
    the synthesis as it is. *)
Theorem post_text_truthiness
    (rt : runtime) (conn : connection) (req : request)
    (d : list (string * value)) (v : value) :
  read_json rt req = Ok (VDict d) ->
  dict_get d "text" = Some v ->
  (truthy VNone = false /\ truthy (VBool false) = false
   /\ truthy (VInt 0) = false /\ truthy (VList []) = false
   /\ truthy (VDict []) = false)
  /\ (truthy v = false ->
      engine_calls (snd (do_POST rt conn req fresh)) = []
      /\ (reliable conn ->
          fst (do_POST rt conn req fresh) = Ok tt
          /\ response_of (sent (snd (do_POST rt conn req fresh)))
             = Some (json_response no_text_body)))
  /\ (truthy v = true ->
      reliable conn ->
      engine_calls (snd (do_POST rt conn req fresh)) = [(v, VOICE)]).
Proof.
  intros Hj Hd. split; [repeat split |]. split.
  - intros Ht.
    apply (falsy_text_response rt conn req (VDict d) v); auto.
    now apply py_get_text.
  - intros Ht H. destruct (synthesis rt v) as [audio | e] eqn:Hs.
    + now rewrite (do_POST_audio rt conn req (VDict d) v audio Hj
                     (py_get_text d v Hd) Ht Hs H).
    + run_reliable H. rewrite Hj. simpl. rewrite Hd. simpl. rewrite Ht.
      run_reliable H. rewrite Hs. run_reliable H. reflexivity.
Qed.

Lemma post_text_truthiness_witness :
  engine_calls (snd (do_POST Samples.speaking healthy Samples.zero_text fresh))
  = []
  /\ engine_calls
       (snd (do_POST Samples.speaking healthy Samples.list_text fresh))
     = [(VList [VInt 1], VOICE)].
Proof.
  split.
  - apply (post_text_truthiness Samples.speaking healthy Samples.zero_text
             [("text", VInt 0)] (VInt 0)); reflexivity.
  - apply (post_text_truthiness Samples.speaking healthy Samples.list_text
             [("text", VList [VInt 1])] (VList [VInt 1])); try reflexivity.
    intros n. reflexivity.
Defined.

(** ** Exceptions *)

Lemma do_POST_raised_response
    (rt : runtime) (conn : connection) (req : request) (e : exn) :
  raised_before_response rt req e ->
  reliable conn ->
  fst (do_POST rt conn req fresh) = Ok tt
  /\ response_of (sent (snd (do_POST rt conn req fresh)))
     = Some (json_response (error_body rt e)).
Proof.
  intros Hr H. destruct (do_POST_raised rt conn req e Hr H) as [Hok Hsent].
  split; [exact Hok |]. rewrite Hsent. apply response_of_json.
Qed.

(** C4.  When an exception [e] is raised while the body is read, decoded
    or parsed, while [text] is extracted, or by the synthesis, and the
    response calls themselves do not fail, the handler returns normally and
    the response has status 200, [Content-Type: application/json] and the
    body [json.dumps({"error": str(e)}).encode()].  In particular this is
    the response to a body that [json.loads] rejects with [e]. *)
Theorem exception_before_response_gives_json_error
    (rt : runtime) (conn : connection) (req : request) :
  reliable conn ->
  (forall e,
      raised_before_response rt req e ->
      fst (do_POST rt conn req fresh) = Ok tt
      /\ response_of (sent (snd (do_POST rt conn req fresh)))
         = Some (mk_response 200
                   [ ("Access-Control-Allow-Origin", "*");
                     ("Content-Type", "application/json") ]
                   (str_encode rt (json_dumps rt [("error", exn_str e)]))))
  /\ (forall n raw text e,
        content_length rt req = Ok n ->
        rfile_read req n = Ok raw ->
        bytes_decode rt raw = Ok text ->
        json_loads rt text = Raise e ->
        response_of (sent (snd (do_POST rt conn req fresh)))
        = Some (mk_response 200
                  [ ("Access-Control-Allow-Origin", "*");
                    ("Content-Type", "application/json") ]
                  (str_encode rt (json_dumps rt [("error", exn_str e)])))).
Proof.
  intros H. split.
  - intros e Hr. exact (do_POST_raised_response rt conn req e Hr H).
  - intros n raw text e Hi Hrd Hd Hl.
    apply (do_POST_raised_response rt conn req e); [| exact H].
    exact (raised_by_loads rt req e n raw text Hi Hrd Hd Hl).
Qed.

Lemma exception_before_response_gives_json_error_witness :
  json_loads Samples.speaking "not json"
  = Raise (mk_exn "JSONDecodeError"
             "Expecting value: line 1 column 1 (char 0)")
  /\ response_of
       (sent (snd (do_POST Samples.speaking healthy Samples.not_json fresh)))
     = Some (json_response
               (list_byte_of_string
                  ("{" ++ quoted "error" ++ ": "
                     ++ quoted "Expecting value: line 1 column 1 (char 0)"
                     ++ "}")))
  /\ response_of
       (sent (snd (do_POST Samples.failing healthy Samples.hello fresh)))
     = Some (json_response
               (list_byte_of_string
                  ("{" ++ quoted "error" ++ ": "
                     ++ quoted "Connection closed" ++ "}"))).
Proof.
  split; [reflexivity |].
  destruct (exception_before_response_gives_json_error
              Samples.speaking healthy Samples.not_json) as [_ Hparse].
  { intros n. reflexivity. }
  destruct (exception_before_response_gives_json_error
              Samples.failing healthy Samples.hello) as [Hany _].
  { intros n. reflexivity. }
  split.
  - apply (Hparse 8 (list_byte_of_string "not json") "not json"
             (mk_exn "JSONDecodeError"
                "Expecting value: line 1 column 1 (char 0)"));
      reflexivity.
  - apply (Hany Samples.closed).
    apply (raised_by_synthesis _ _ _ (VDict [("text", VStr "Hello world")])
             (VStr "Hello world")); reflexivity.
Defined.

(** C8.  Without a [Content-Length] header the length is [0] and the body
    read is empty; as [json.loads] rejects the empty string, the handler
    takes the [except] path: it answers with the JSON error body and never
    calls the engine. *)
Theorem post_without_content_length
    (rt : runtime) (conn : connection) (req : request) (e : exn) :
  headers_get (headers req) "Content-Length" = None ->
  bytes_decode rt [] = Ok "" ->
  json_loads rt "" = Raise e ->
  content_length rt req = Ok 0
  /\ rfile_read req 0 = Ok []
  /\ read_json rt req = Raise e
  /\ engine_calls (snd (do_POST rt conn req fresh)) = []
  /\ (reliable conn ->
      fst (do_POST rt conn req fresh) = Ok tt
      /\ response_of (sent (snd (do_POST rt conn req fresh)))
         = Some (json_response
                   (str_encode rt (json_dumps rt [("error", exn_str e)])))).
Proof.
  intros Hh Hd Hl.
  assert (Hi : content_length rt req = Ok 0)
    by (unfold content_length; now rewrite Hh).
  assert (Hj : read_json rt req = Raise e)
    by (unfold read_json; rewrite Hi; simpl; rewrite Hd; exact Hl).
  repeat split; auto.
  - destruct (do_POST_engine_calls rt conn req)
      as [Hc | (data & text & Hj' & _)]; auto.
    congruence.
  - apply (do_POST_raised_response rt conn req e); auto.
    apply (raised_by_loads _ _ _ 0 [] ""); auto.
  - apply (do_POST_raised_response rt conn req e); auto.
    apply (raised_by_loads _ _ _ 0 [] ""); auto.
Qed.

Lemma post_without_content_length_witness :
  engine_calls (snd (do_POST Samples.speaking healthy Samples.no_length fresh))
  = []
  /\ response_of
       (sent (snd (do_POST Samples.speaking healthy Samples.no_length fresh)))
     = Some (json_response
               (list_byte_of_string
                  ("{" ++ quoted "error" ++ ": "
                     ++ quoted "Expecting value: line 1 column 1 (char 0)"
                     ++ "}"))).
Proof.
  destruct (post_without_content_length
              Samples.speaking healthy Samples.no_length
              (mk_exn "JSONDecodeError"
                 "Expecting value: line 1 column 1 (char 0)"))
    as (_ & _ & _ & Hcalls & Hresp); try reflexivity.
  split; [exact Hcalls |]. apply Hresp. intros n. reflexivity.
Defined.



(** ** Status and CORS *)

Lemma do_OPTIONS_reliable (conn : connection) :
  reliable conn ->
  do_OPTIONS conn fresh
  = (Ok tt,
     mk_world
       [ SendResponse 200;
         SendHeader "Access-Control-Allow-Origin" "*";
         SendHeader "Access-Control-Allow-Methods" "POST, OPTIONS";
         SendHeader "Access-Control-Allow-Headers" "Content-Type";
         EndHeaders ] 5 []).
Proof.
  intros H. run_reliable H. reflexivity.
Qed.

Lemma do_OPTIONS_statuses (conn : connection) :
  Forall (fun c => c = 200) (statuses (sent (snd (do_OPTIONS conn fresh)))).
Proof.
  run_any conn; repeat constructor.
Qed.

Lemma do_OPTIONS_engine_calls (conn : connection) (w : world) :
  engine_calls (snd (do_OPTIONS conn w)) = engine_calls w.
Proof.
  unfold_handler. unfold perform. simpl.
  repeat (match goal with
          | |- context [conn ?n] => destruct (conn n); simpl
          end); reflexivity.
Qed.

(** On a reliable connection every POST gets a well-formed response with
    status 200 and the CORS origin header. *)
Lemma do_POST_response_cors
    (rt : runtime) (conn : connection) (req : request) :
  reliable conn ->
  exists r,
    response_of (sent (snd (do_POST rt conn req fresh))) = Some r
    /\ status r = 200
    /\ In ("Access-Control-Allow-Origin", "*") (response_headers r).
Proof.
  intros H.
  destruct (before_response_cases rt req)
    as [(e & Hr) | [(data & text & Hj & Hg & Ht)
                   | (data & text & audio & Hj & Hg & Ht & Hs)]].
  - destruct (do_POST_raised rt conn req e Hr H) as [_ Hsent].
    rewrite Hsent, response_of_json. eexists. split; [reflexivity |].
    simpl. auto.
  - rewrite (do_POST_falsy rt conn req data text Hj Hg Ht H).
    cbn [snd sent]. rewrite response_of_json. eexists.
    split; [reflexivity |]. simpl. auto.
  - rewrite (do_POST_audio rt conn req data text audio Hj Hg Ht Hs H).
    cbn [snd sent]. rewrite response_of_success_trace. eexists.
    split; [reflexivity |]. simpl. auto.
Qed.

(** C5.  Whatever the request and whatever the connection does, the handler
    sends no status other than 200, for POST and for OPTIONS; and when the
    response calls go through, the response of a POST (success or error)
    and of an OPTIONS has status 200 and carries
    [Access-Control-Allow-Origin: *]. *)
Theorem every_response_is_200_with_cors
    (rt : runtime) (conn : connection) (req : request) :
  Forall (fun c => c = 200) (statuses (sent (snd (do_POST rt conn req fresh))))
  /\ Forall (fun c => c = 200) (statuses (sent (snd (do_OPTIONS conn fresh))))
  /\ (reliable conn ->
      (exists r,
         response_of (sent (snd (do_POST rt conn req fresh))) = Some r
         /\ status r = 200
         /\ In ("Access-Control-Allow-Origin", "*") (response_headers r))
      /\ (exists r,
            response_of (sent (snd (do_OPTIONS conn fresh))) = Some r
            /\ status r = 200
            /\ In ("Access-Control-Allow-Origin", "*") (response_headers r))).
Proof.
  split; [apply do_POST_statuses |]. split; [apply do_OPTIONS_statuses |].
  intros H. split; [now apply do_POST_response_cors |].
  rewrite (do_OPTIONS_reliable conn H). eexists. split; [reflexivity |].
  simpl. auto.
Qed.

Lemma every_response_is_200_with_cors_witness :
  (exists r,
     response_of
       (sent (snd (do_POST Samples.failing healthy Samples.hello fresh)))
     = Some r
     /\ status r = 200
     /\ In ("Access-Control-Allow-Origin", "*") (response_headers r))
  /\ statuses
       (sent (snd (do_POST Samples.failing
                     (broken_at 4 Samples.broken_pipe) Samples.hello fresh)))
     = [200].
Proof.
  split; [| reflexivity].
  apply (every_response_is_200_with_cors
           Samples.failing healthy Samples.hello).
  intros n. reflexivity.
Defined.

(** C6.  On OPTIONS the handler sends status 200, the three CORS headers
    and the end of the headers, and writes no body; it returns normally,
    reads nothing of the request, and leaves the engine alone. *)
Theorem options_preflight (conn : connection) (w : world) :
  engine_calls (snd (do_OPTIONS conn w)) = engine_calls w
  /\ (reliable conn ->
      do_OPTIONS conn fresh
      = (Ok tt,
         mk_world
           [ SendResponse 200;
             SendHeader "Access-Control-Allow-Origin" "*";
             SendHeader "Access-Control-Allow-Methods" "POST, OPTIONS";
             SendHeader "Access-Control-Allow-Headers" "Content-Type";
             EndHeaders ] 5 [])
      /\ response_of (sent (snd (do_OPTIONS conn fresh)))
         = Some (mk_response 200
                   [ ("Access-Control-Allow-Origin", "*");
                     ("Access-Control-Allow-Methods", "POST, OPTIONS");
                     ("Access-Control-Allow-Headers", "Content-Type") ]
                   [])).
Proof.
  split; [apply do_OPTIONS_engine_calls |].
  intros H. rewrite (do_OPTIONS_reliable conn H). split; reflexivity.
Qed.

Lemma options_preflight_witness :
  response_of (sent (snd (do_OPTIONS healthy fresh)))
  = Some (mk_response 200
            [ ("Access-Control-Allow-Origin", "*");
              ("Access-Control-Allow-Methods", "POST, OPTIONS");
              ("Access-Control-Allow-Headers", "Content-Type") ]
            []).
Proof.
  apply (options_preflight healthy fresh). intros n. reflexivity.
Defined.

(** ** The voice *)

(** C7.  [VOICE] is one fixed string; [generate_audio] calls the engine
    once, with its [text] and [VOICE]; every call the POST handler makes of
    the engine has [VOICE] as its voice, whatever the request; and what
    [generate_audio] does depends on the engine only through what it
    answers for [VOICE]. *)
Theorem voice_is_fixed
    (rt : runtime) (conn : connection) (req : request)
    (text : value) (w : world) :
  VOICE = "en-GB-RyanNeural"
  /\ engine_calls (snd (generate_audio rt text w))
     = (engine_calls w ++ [(text, VOICE)])%list
  /\ Forall (fun call => snd call = VOICE)
       (engine_calls (snd (do_POST rt conn req fresh)))
  /\ (forall rt',
        (forall t, Communicate rt' t VOICE = Communicate rt t VOICE) ->
        generate_audio rt' text w = generate_audio rt text w).
Proof.
  split; [reflexivity |]. split; [now rewrite generate_audio_spec |]. split.
  - destruct (do_POST_engine_calls rt conn req)
      as [-> | (data & t & _ & _ & _ & ->)]; repeat constructor.
  - intros rt' Heq. rewrite !generate_audio_spec. unfold synthesis.
    now rewrite Heq.
Qed.

Lemma voice_is_fixed_witness :
  engine_calls (snd (do_POST Samples.speaking healthy Samples.hello fresh))
  = [(VStr "Hello world", "en-GB-RyanNeural")]
  /\ generate_audio
       (Reference.runtime_with
          (fun t voice =>
             if (voice =? VOICE)%string
             then Communicate Samples.speaking t voice
             else Raise Samples.closed))
       (VStr "Hello world") fresh
     = generate_audio Samples.speaking (VStr "Hello world") fresh.
Proof.
  split; [reflexivity |].
  apply (voice_is_fixed Samples.speaking healthy Samples.hello
           (VStr "Hello world") fresh).
  intros t. reflexivity.
Defined.

(** ** The reference parser has fuel enough *)

Section ReferenceFuel.

Import Reference.

Local Open Scope nat_scope.

Lemma skip_ws_length (s : string) (p : nat) :
  String.length (fst (skip_ws s p)) <= String.length s.
Proof.
  revert p. induction s as [| c s IH]; intros p; simpl; auto.
  destruct (is_ws c); simpl; [specialize (IH (S p)); lia | lia].
Qed.

Lemma drop_length (n : nat) (s : string) :
  String.length (drop n s) <= String.length s.
Proof.
  revert s. induction n as [| n IH]; intros s; destruct s; simpl; try lia.
  specialize (IH s). lia.
Qed.

Lemma drop_cons_length (n : nat) (c : ascii) (s : string) :
  String.length (drop (S n) (String c s)) < String.length (String c s).
Proof.
  pose proof (drop_length n s). simpl. lia.
Qed.

#[local] Arguments drop : simpl never.

Lemma take_digits_length (s : string) (acc : Z) (count : nat) :
  String.length (snd (take_digits s acc count)) <= String.length s.
Proof.
  revert acc count. induction s as [| c s IH]; intros acc count; simpl; auto.
  destruct (is_digit c); simpl; [| lia].
  specialize (IH (acc * 10 + digit_val c)%Z (S count)). lia.
Qed.

Lemma prepend_got (p : string) (r : scan string) a rest q :
  prepend p r = Got a rest q -> exists a', r = Got a' rest q.
Proof.
  destruct r; simpl; intros H; inversion H; subst; eauto.
Qed.

Lemma scanstring_length (n : nat) :
  forall s pos b str rest p,
    String.length s <= n ->
    scanstring s pos b = Got str rest p ->
    String.length rest < String.length s.
Proof.
  induction n as [| n IH]; intros s pos b str rest p Hn H.
  - destruct s; simpl in *; [discriminate | lia].
  - destruct s as [| c s1]; simpl in H; [discriminate |].
    simpl in Hn.
    repeat match type of H with
           | (if ?c then _ else _) = _ => destruct c
           | match ?x with _ => _ end = _ => destruct x
           | prepend _ _ = _ => apply prepend_got in H; destruct H as [? H]
           | scanstring _ _ _ = _ => apply IH in H; simpl in *; try lia
           | Got _ _ _ = Got _ _ _ =>
               inversion H; subst; clear H; simpl; try lia
           | Bad _ _ = _ => discriminate H
           | Deep = _ => discriminate H
           end.
Qed.

Lemma scanstring_not_deep (n : nat) :
  forall s pos b, String.length s <= n -> scanstring s pos b <> Deep.
Proof.
  induction n as [| n IH]; intros s pos b Hn H.
  - destruct s; simpl in *; [discriminate | lia].
  - destruct s as [| c s1]; simpl in H; [discriminate |].
    simpl in Hn.
    repeat match type of H with
           | (if ?c then _ else _) = _ => destruct c
           | match ?x with _ => _ end = _ => destruct x
           | prepend _ ?r = _ =>
               destruct r eqn:?; simpl in H; try discriminate H
           | Got _ _ _ = _ => discriminate H
           | Bad _ _ = _ => discriminate H
           end;
      match goal with
      | E : scanstring _ _ _ = Deep |- _ => apply IH in E; simpl in *; auto; lia
      end.
Qed.

Lemma take_sign_length (plus : bool) (s : string) :
  String.length (snd (take_sign plus s)) <= String.length s.
Proof.
  destruct s as [| c s]; simpl; auto.
  destruct (code c =? 45)%N; simpl; [lia |].
  destruct (plus && (code c =? 43)%N); simpl; lia.
Qed.

Lemma integer_part_length s i ni s1 :
  integer_part s = Some (i, ni, s1) -> String.length s1 < String.length s.
Proof.
  destruct s as [| c s]; simpl; [discriminate |].
  destruct (code c =? 48)%N.
  - intros H. inversion H; subst. lia.
  - destruct (is_digit c) eqn:E; [| discriminate].
    intros H. inversion H as [H1].
    match type of H1 with
    | take_digits ?a ?b ?n = _ => pose proof (take_digits_length a b n) as L
    end.
    rewrite H1 in L. simpl in L. lia.
Qed.

Lemma fraction_length s m m' nf s2 :
  fraction s m = Some (m', nf, s2) -> String.length s2 <= String.length s.
Proof.
  destruct s as [| c [| d s]]; simpl; try discriminate.
  destruct ((code c =? 46)%N && is_digit d) eqn:E; [| discriminate].
  apply andb_prop in E. destruct E as [_ E]. rewrite ?E.
  intros H. inversion H as [H1].
  match type of H1 with
  | take_digits ?a ?b ?n = _ => pose proof (take_digits_length a b n) as L
  end.
  rewrite H1 in L. simpl in L. lia.
Qed.

Lemma exponent_length s e ne s3 :
  exponent s = Some (e, ne, s3) -> String.length s3 <= String.length s.
Proof.
  destruct s as [| c s]; simpl; [discriminate |].
  destruct ((code c =? 101)%N || (code c =? 69)%N); [| discriminate].
  pose proof (take_sign_length true s) as L1.
  destruct (take_sign true s) as [[neg signed] s2]. simpl in L1.
  pose proof (take_digits_length s2 0%Z 0) as L2.
  destruct (take_digits s2 0%Z 0) as [[v n] rest]. simpl in L2.
  destruct n; [discriminate |].
  intros H. inversion H; subst. lia.
Qed.

Lemma scan_number_got s pos r :
  scan_number s pos = Some r ->
  exists v rest p, r = Got v rest p /\ String.length rest < String.length s.
Proof.
  unfold scan_number.
  pose proof (take_sign_length false s) as L0.
  destruct (take_sign false s) as [[neg signed] s0]. simpl in L0.
  destruct (integer_part s0) as [[[i ni] s1] |] eqn:Ei; [| discriminate].
  apply integer_part_length in Ei.
  destruct (fraction s1 i) as [[[m nf] s2] |] eqn:Ef.
  - apply fraction_length in Ef.
    destruct (exponent s2) as [[[e ne] s3] |] eqn:Ee.
    + apply exponent_length in Ee. intros H. inversion H; subst.
      do 3 eexists. split; [reflexivity | lia].
    + intros H. inversion H; subst. do 3 eexists. split; [reflexivity | lia].
  - destruct (exponent s1) as [[[e ne] s3] |] eqn:Ee.
    + apply exponent_length in Ee. intros H. inversion H; subst.
      do 3 eexists. split; [reflexivity | lia].
    + intros H. inversion H; subst. do 3 eexists. split; [reflexivity | lia].
Qed.


Lemma starts_with_drop (c : ascii) (s : string) :
  starts_with c s = true -> S (String.length (drop 1 s)) = String.length s.
Proof.
  destruct s; simpl; [discriminate | reflexivity].
Qed.

(** What a scanner returns is shorter than what it was given. *)
Lemma scan_shrinks (fuel : nat) :
  (forall s pos v rest p,
      scan_once fuel s pos = Got v rest p ->
      String.length rest < String.length s)
  /\ (forall s pos acc v rest p,
        scan_members fuel s pos acc = Got v rest p ->
        String.length rest < String.length s)
  /\ (forall s pos acc v rest p,
        scan_elements fuel s pos acc = Got v rest p ->
        String.length rest < String.length s).
Proof.
  induction fuel as [| fuel (IHo & IHm & IHe)];
    [repeat split; intros; discriminate |].
  split; [| split].
  - intros s pos v rest p H. simpl in H.
    destruct s as [| c s1]; [discriminate |].
    destruct (code c =? 34)%N.
    { destruct (scanstring s1 (S pos) pos) as [str r q | |] eqn:E;
        try discriminate.
      inversion H; subst.
      apply (scanstring_length (String.length s1)) in E; [| lia]. simpl. lia. }
    destruct (code c =? 123)%N.
    { pose proof (skip_ws_length s1 (S pos)) as L.
      destruct (skip_ws s1 (S pos)) as [s2 p2]. simpl in L.
      pose proof (drop_length 1 s2).
      destruct (starts_with "}" s2).
      - inversion H; subst. cbn [String.length]. lia.
      - apply IHm in H. cbn [String.length]. lia. }
    destruct (code c =? 91)%N.
    { pose proof (skip_ws_length s1 (S pos)) as L.
      destruct (skip_ws s1 (S pos)) as [s2 p2]. simpl in L.
      pose proof (drop_length 1 s2).
      destruct (starts_with "]" s2).
      - inversion H; subst. cbn [String.length]. lia.
      - apply IHe in H. cbn [String.length]. lia. }
    repeat match type of H with
           | (if ?b then _ else _) = _ =>
               destruct b;
               [inversion H; subst; apply drop_cons_length |]
           end.
    destruct (scan_number (String c s1) pos) as [r |] eqn:E;
      [| discriminate].
    apply scan_number_got in E. destruct E as (v' & rest' & p' & -> & L).
    inversion H; subst. exact L.
  - intros s pos acc v rest p H. simpl in H.
    destruct (starts_with dquote s) eqn:Eq; [| discriminate].
    apply starts_with_drop in Eq.
    destruct (scanstring (drop 1 s) (S pos) pos) as [key s2 p2 | |] eqn:Es;
      try discriminate.
    apply (scanstring_length (String.length (drop 1 s))) in Es; [| lia].
    pose proof (skip_ws_length s2 p2) as L3.
    destruct (skip_ws s2 p2) as [s3 p3]. simpl in L3.
    destruct (starts_with ":" s3) eqn:Ec; [| discriminate].
    apply starts_with_drop in Ec.
    pose proof (skip_ws_length (drop 1 s3) (S p3)) as L4.
    destruct (skip_ws (drop 1 s3) (S p3)) as [s4 p4]. simpl in L4.
    destruct (scan_once fuel s4 p4) as [v5 s5 p5 | |] eqn:Eo;
      try discriminate.
    apply IHo in Eo.
    pose proof (skip_ws_length s5 p5) as L6.
    destruct (skip_ws s5 p5) as [s6 p6]. simpl in L6.
    pose proof (drop_length 1 s6) as L7.
    destruct (starts_with "}" s6).
    { inversion H; subst. lia. }
    destruct (starts_with "," s6); [| discriminate].
    pose proof (skip_ws_length (drop 1 s6) (S p6)) as L8.
    destruct (skip_ws (drop 1 s6) (S p6)) as [s7 p7]. simpl in L8.
    apply IHm in H. lia.
  - intros s pos acc v rest p H. simpl in H.
    destruct (scan_once fuel s pos) as [v1 s1 p1 | |] eqn:Eo;
      try discriminate.
    apply IHo in Eo.
    pose proof (skip_ws_length s1 p1) as L2.
    destruct (skip_ws s1 p1) as [s2 p2]. simpl in L2.
    pose proof (drop_length 1 s2) as L3.
    destruct (starts_with "]" s2).
    { inversion H; subst. lia. }
    destruct (starts_with "," s2); [| discriminate].
    pose proof (skip_ws_length (drop 1 s2) (S p2)) as L4.
    destruct (skip_ws (drop 1 s2) (S p2)) as [s3 p3]. simpl in L4.
    apply IHe in H. lia.
Qed.


(** Twice the length of the text and one is fuel enough. *)
Lemma scan_fuel (fuel : nat) :
  (forall s pos,
      2 * String.length s + 1 <= fuel -> scan_once fuel s pos <> Deep)
  /\ (forall s pos acc,
        2 * String.length s + 2 <= fuel ->
        scan_members fuel s pos acc <> Deep)
  /\ (forall s pos acc,
        2 * String.length s + 2 <= fuel ->
        scan_elements fuel s pos acc <> Deep).
Proof.
  induction fuel as [| fuel (IHo & IHm & IHe)];
    [repeat split; intros; lia |].
  split; [| split].
  - intros s pos Hf H. simpl in H.
    destruct s as [| c s1]; [discriminate |]. cbn [String.length] in Hf.
    destruct (code c =? 34)%N.
    { destruct (scanstring s1 (S pos) pos) as [str r q | |] eqn:E;
        try discriminate.
      now apply (scanstring_not_deep (String.length s1)) in E. }
    destruct (code c =? 123)%N.
    { pose proof (skip_ws_length s1 (S pos)) as L.
      destruct (skip_ws s1 (S pos)) as [s2 p2]. simpl in L.
      destruct (starts_with "}" s2); [discriminate |].
      apply IHm in H; auto. lia. }
    destruct (code c =? 91)%N.
    { pose proof (skip_ws_length s1 (S pos)) as L.
      destruct (skip_ws s1 (S pos)) as [s2 p2]. simpl in L.
      destruct (starts_with "]" s2); [discriminate |].
      apply IHe in H; auto. lia. }
    repeat match type of H with
           | (if ?b then _ else _) = _ => destruct b; [discriminate |]
           end.
    destruct (scan_number (String c s1) pos) as [r |] eqn:E;
      [| discriminate].
    apply scan_number_got in E. destruct E as (v' & rest' & p' & -> & _).
    discriminate.
  - intros s pos acc Hf H. simpl in H.
    destruct (starts_with dquote s) eqn:Eq; [| discriminate].
    apply starts_with_drop in Eq.
    destruct (scanstring (drop 1 s) (S pos) pos) as [key s2 p2 | |] eqn:Es;
      try discriminate.
    2: now apply (scanstring_not_deep (String.length (drop 1 s))) in Es.
    apply (scanstring_length (String.length (drop 1 s))) in Es; [| lia].
    pose proof (skip_ws_length s2 p2) as L3.
    destruct (skip_ws s2 p2) as [s3 p3]. simpl in L3.
    destruct (starts_with ":" s3) eqn:Ec; [| discriminate].
    apply starts_with_drop in Ec.
    pose proof (skip_ws_length (drop 1 s3) (S p3)) as L4.
    destruct (skip_ws (drop 1 s3) (S p3)) as [s4 p4]. simpl in L4.
    destruct (scan_once fuel s4 p4) as [v5 s5 p5 | |] eqn:Eo;
      try discriminate.
    2: { apply IHo in Eo; auto. lia. }
    apply (proj1 (scan_shrinks fuel)) in Eo.
    pose proof (skip_ws_length s5 p5) as L6.
    destruct (skip_ws s5 p5) as [s6 p6]. simpl in L6.
    pose proof (drop_length 1 s6) as L7.
    destruct (starts_with "}" s6); [discriminate |].
    destruct (starts_with "," s6); [| discriminate].
    pose proof (skip_ws_length (drop 1 s6) (S p6)) as L8.
    destruct (skip_ws (drop 1 s6) (S p6)) as [s7 p7]. simpl in L8.
    apply IHm in H; auto. lia.
  - intros s pos acc Hf H. simpl in H.
    destruct (scan_once fuel s pos) as [v1 s1 p1 | |] eqn:Eo;
      try discriminate.
    2: { apply IHo in Eo; auto. lia. }
    apply (proj1 (scan_shrinks fuel)) in Eo.
    pose proof (skip_ws_length s1 p1) as L2.
    destruct (skip_ws s1 p1) as [s2 p2]. simpl in L2.
    pose proof (drop_length 1 s2) as L3.
    destruct (starts_with "]" s2); [discriminate |].
    destruct (starts_with "," s2); [| discriminate].
    pose proof (skip_ws_length (drop 1 s2) (S p2)) as L4.
    destruct (skip_ws (drop 1 s2) (S p2)) as [s3 p3]. simpl in L4.
    apply IHe in H; auto. lia.
Qed.

(** [json_loads] returns a value or raises [JSONDecodeError]: it does not
    run out of fuel. *)
Lemma json_loads_fuel (doc : string) :
  (exists v, json_loads doc = Ok v)
  \/ (exists msg, json_loads doc = Raise (mk_exn "JSONDecodeError" msg)).
Proof.
  unfold json_loads. destruct (prefix bom doc).
  { right. unfold json_decode_error.
    destruct (line_col doc 0 1 1). eauto. }
  pose proof (skip_ws_length doc 0) as L.
  destruct (skip_ws doc 0) as [s p]. simpl in L.
  destruct (scan_once (2 * String.length doc + 1) s p) as [v rest p1 | m q |]
    eqn:E.
  - destruct (skip_ws rest p1) as [[| c r] p2]; [left; eauto |].
    right. unfold json_decode_error. destruct (line_col doc p2 1 1). eauto.
  - right. unfold json_decode_error. destruct (line_col doc q 1 1). eauto.
  - exfalso. apply (proj1 (scan_fuel _)) in E; auto. lia.
Qed.

End ReferenceFuel.

(** * Further properties *)

(** ** The buffer of [generate_audio] *)

Lemma audio_of_app (cs1 cs2 : list chunk) :
  audio_of (cs1 ++ cs2) = (audio_of cs1 ++ audio_of cs2)%list.
Proof.
  unfold audio_of. now rewrite filter_app, map_app, concat_app.
Qed.

Lemma audio_of_length (cs : list chunk) :
  List.length (audio_of cs) = audio_size cs.
Proof.
  unfold audio_of, audio_size. rewrite length_concat. now rewrite map_map.
Qed.

Lemma consume_stream_app (cs : list chunk) (s : stream) (acc : bytes) :
  consume (stream_app cs s) acc = consume s (acc ++ audio_of cs)%list.
Proof.
  revert acc. induction cs as [| c cs IH]; intros acc; simpl.
  - unfold audio_of. simpl. now rewrite app_nil_r.
  - change (c :: cs) with ([c] ++ cs)%list. rewrite audio_of_app, app_assoc.
    destruct (is_audio c) eqn:E; rewrite IH; unfold audio_of at 2; simpl;
      rewrite E; simpl; now rewrite ?app_nil_r.
Qed.

Lemma stream_app_of_list (cs1 cs2 : list chunk) :
  stream_app cs1 (stream_of_list cs2) = stream_of_list (cs1 ++ cs2).
Proof.
  induction cs1 as [| c cs1 IH]; simpl; [reflexivity | now rewrite IH].
Qed.

Lemma consume_raise_inv (s : stream) (acc : bytes) (e : exn) :
  consume s acc = Raise e -> exists cs, s = stream_app cs (Fails e).
Proof.
  revert acc. induction s as [| c rest IH | e']; intros acc H; simpl in H.
  - discriminate.
  - destruct (is_audio c); destruct (IH _ H) as [cs ->];
      now exists (c :: cs).
  - inversion H; subst. now exists [].
Qed.

(** X1.  [generate_audio] raises [e] exactly when the constructor of the
    engine raises [e] or the stream raises [e] after some chunks; the bytes
    received before the failure are not returned. *)
Theorem generate_audio_raises_iff
    (rt : runtime) (text : value) (w : world) (e : exn) :
  fst (generate_audio rt text w) = Raise e
  <-> (Communicate rt text VOICE = Raise e
       \/ exists cs, Communicate rt text VOICE = Ok (stream_app cs (Fails e))).
Proof.
  rewrite generate_audio_spec. unfold synthesis. simpl. split.
  - destruct (Communicate rt text VOICE) as [s | e'].
    + intros H. right. destruct (consume_raise_inv s [] e H) as [cs ->].
      now exists cs.
    + intros H. left. now inversion H.
  - intros [-> | [cs ->]]; [reflexivity |].
    now rewrite consume_stream_app.
Qed.

Lemma generate_audio_raises_iff_witness :
  fst (generate_audio Samples.failing (VStr "Hello world") fresh)
  = Raise Samples.closed.
Proof.
  apply (generate_audio_raises_iff
           Samples.failing (VStr "Hello world") fresh Samples.closed).
  right. exists [Samples.audio1]. reflexivity.
Defined.

(** X2.  The buffer of a stream is the buffer of its first chunks followed
    by the buffer of the rest, after whatever the buffer held before; and
    its length is the sum of the sizes of the audio chunks. *)
Theorem audio_buffer_composes (cs1 cs2 : list chunk) (acc : bytes) :
  consume (stream_of_list (cs1 ++ cs2)) acc
  = consume (stream_of_list cs2) (acc ++ audio_of cs1)%list
  /\ consume (stream_of_list (cs1 ++ cs2)) []
     = Ok (audio_of cs1 ++ audio_of cs2)%list
  /\ List.length (audio_of (cs1 ++ cs2))
     = (audio_size cs1 + audio_size cs2)%nat.
Proof.
  split; [| split].
  - now rewrite <- stream_app_of_list, consume_stream_app.
  - now rewrite consume_stream_of_list, audio_of_app.
  - now rewrite audio_of_app, length_app, !audio_of_length.
Qed.

(** ** The POST handler on a reliable connection *)

(** X3.  When the engine's stream raises [e] after some chunks, the POST
    handler answers with the JSON error of [e]: the audio received before
    the failure is not sent, and the engine is not called again. *)
Theorem engine_failure_sends_no_audio
    (rt : runtime) (conn : connection) (req : request)
    (d : list (string * value)) (text : value) (cs : list chunk) (e : exn) :
  read_json rt req = Ok (VDict d) ->
  dict_get d "text" = Some text ->
  truthy text = true ->
  Communicate rt text VOICE = Ok (stream_app cs (Fails e)) ->
  reliable conn ->
  do_POST rt conn req fresh
  = (Ok tt,
     mk_world
       (json_trace (str_encode rt (json_dumps rt [("error", exn_str e)])))
       5 [(text, VOICE)]).
Proof.
  intros Hj Hd Ht Hc H.
  assert (Hs : synthesis rt text = Raise e)
    by (unfold synthesis; rewrite Hc; apply consume_stream_app).
  run_reliable H. rewrite Hj. simpl. rewrite Hd. simpl. rewrite Ht.
  run_reliable H. rewrite Hs. run_reliable H. reflexivity.
Qed.

Lemma engine_failure_sends_no_audio_witness :
  do_POST Samples.failing healthy Samples.hello fresh
  = (Ok tt,
     mk_world
       (json_trace
          (list_byte_of_string
             ("{" ++ quoted "error" ++ ": " ++ quoted "Connection closed"
                  ++ "}")))
       5 [(VStr "Hello world", VOICE)]).
Proof.
  apply (engine_failure_sends_no_audio Samples.failing healthy Samples.hello
           [("text", VStr "Hello world")] (VStr "Hello world")
           [Samples.audio1] Samples.closed); try reflexivity.
  intros n. reflexivity.
Defined.

Lemma nat_of_str_of_nat (n : nat) : nat_of_str (str_of_nat n) = Some n.
Proof.
  unfold nat_of_str, str_of_nat. rewrite DecimalString.NilEmpty.usu. simpl.
  now rewrite DecimalNat.Unsigned.of_to.
Qed.

(** X4.  On success the value of the [Content-Length] header, read back as
    a decimal numeral, is the number of bytes of the body, which is the sum
    of the sizes of the audio chunks of the stream. *)
Theorem content_length_counts_audio_bytes
    (rt : runtime) (conn : connection) (req : request)
    (d : list (string * value)) (text : value) (cs : list chunk) :
  read_json rt req = Ok (VDict d) ->
  dict_get d "text" = Some text ->
  truthy text = true ->
  Communicate rt text VOICE = Ok (stream_of_list cs) ->
  reliable conn ->
  exists r v,
    response_of (sent (snd (do_POST rt conn req fresh))) = Some r
    /\ response_headers r
       = [ ("Access-Control-Allow-Origin", "*");
           ("Content-Type", "audio/mpeg");
           ("Content-Length", v) ]
    /\ nat_of_str v = Some (List.length (body r))
    /\ List.length (body r) = audio_size cs.
Proof.
  intros Hj Hd Ht Hc H.
  assert (Hs : synthesis rt text = Ok (audio_of cs))
    by (unfold synthesis; rewrite Hc; apply consume_stream_of_list).
  rewrite (do_POST_audio rt conn req (VDict d) text (audio_of cs) Hj
             (py_get_text d text Hd) Ht Hs H).
  cbn [snd sent]. rewrite response_of_success_trace.
  eexists. eexists. split; [reflexivity |]. cbn [response_headers body].
  split; [reflexivity |]. split.
  - apply nat_of_str_of_nat.
  - apply audio_of_length.
Qed.

Lemma content_length_counts_audio_bytes_witness :
  exists r v,
    response_of
      (sent (snd (do_POST Samples.speaking healthy Samples.hello fresh)))
    = Some r
    /\ response_headers r
       = [ ("Access-Control-Allow-Origin", "*");
           ("Content-Type", "audio/mpeg");
           ("Content-Length", v) ]
    /\ nat_of_str v = Some (List.length (body r))
    /\ List.length (body r) = 5%nat.
Proof.
  apply (content_length_counts_audio_bytes
           Samples.speaking healthy Samples.hello
           [("text", VStr "Hello world")] (VStr "Hello world")
           Samples.script); try reflexivity.
  intros n. reflexivity.
Defined.

(** X5.  A body that is JSON but not an object (null, a boolean, a number,
    a string or an array) makes [data.get] raise [AttributeError]: the
    engine is not called, and the answer is the JSON error naming the type
    of the value. *)
Theorem non_object_body_is_an_error
    (rt : runtime) (conn : connection) (req : request) (data : value) :
  read_json rt req = Ok data ->
  (forall d, data <> VDict d) ->
  py_get data "text" (VStr "") = Raise (no_get data)
  /\ engine_calls (snd (do_POST rt conn req fresh)) = []
  /\ (reliable conn ->
      do_POST rt conn req fresh
      = (Ok tt,
         mk_world
           (json_trace
              (str_encode rt
                 (json_dumps rt [("error", exn_str (no_get data))])))
           5 [])).
Proof.
  intros Hj Hn.
  assert (Hg : py_get data "text" (VStr "") = Raise (no_get data))
    by (destruct data; try reflexivity; now destruct (Hn d)).
  split; [exact Hg |]. split.
  - destruct (do_POST_engine_calls rt conn req)
      as [Hc | (data' & text & Hj' & Hg' & _)]; [exact Hc |].
    rewrite Hj in Hj'. inversion Hj'; subst. congruence.
  - intros H. run_reliable H. rewrite Hj. simpl. rewrite Hg.
    run_reliable H. reflexivity.
Qed.

Lemma non_object_body_is_an_error_witness :
  do_POST Samples.speaking healthy MoreSamples.array_body fresh
  = (Ok tt,
     mk_world
       (json_trace
          (list_byte_of_string
             ("{" ++ quoted "error" ++ ": "
                  ++ quoted "'list' object has no attribute 'get'" ++ "}")))
       5 []).
Proof.
  destruct (non_object_body_is_an_error
              Samples.speaking healthy MoreSamples.array_body
              (VList [VInt 1; VInt 2])) as (_ & _ & Hrun).
  - reflexivity.
  - intros d. discriminate.
  - apply Hrun. intros n. reflexivity.
Defined.

(** X6.  On a reliable connection the POST handler never raises, and its
    response is one of exactly three: the audio with its length, the fixed
    [No text provided] error, or the JSON error of an exception raised
    before the response; each is one status, headers, one end of headers
    and one write, and the two JSON answers carry no [Content-Length]. *)
Theorem post_answers_in_one_of_three_ways
    (rt : runtime) (conn : connection) (req : request) :
  reliable conn ->
  fst (do_POST rt conn req fresh) = Ok tt
  /\ ((exists text audio,
         synthesis rt text = Ok audio
         /\ snd (do_POST rt conn req fresh)
            = mk_world (success_trace audio) 6 [(text, VOICE)])
      \/ snd (do_POST rt conn req fresh)
         = mk_world (json_trace no_text_body) 5 []
      \/ (exists e,
            raised_before_response rt req e
            /\ sent (snd (do_POST rt conn req fresh))
               = json_trace
                   (str_encode rt (json_dumps rt [("error", exn_str e)])))).
Proof.
  intros H.
  destruct (before_response_cases rt req)
    as [(e & Hr) | [(data & text & Hj & Hg & Ht)
                   | (data & text & audio & Hj & Hg & Ht & Hs)]].
  - destruct (do_POST_raised rt conn req e Hr H) as [Hok Hsent].
    split; [exact Hok |]. right. right. exists e. split; [exact Hr |].
    exact Hsent.
  - rewrite (do_POST_falsy rt conn req data text Hj Hg Ht H).
    split; [reflexivity |]. right. left. reflexivity.
  - rewrite (do_POST_audio rt conn req data text audio Hj Hg Ht Hs H).
    split; [reflexivity |]. left. exists text, audio. now split.
Qed.

Lemma post_answers_in_one_of_three_ways_witness :
  fst (do_POST Samples.silent healthy MoreSamples.array_body fresh) = Ok tt.
Proof.
  apply (post_answers_in_one_of_three_ways
           Samples.silent healthy MoreSamples.array_body).
  intros n. reflexivity.
Defined.

(** ** What the handler reads of the request *)





(** ** Failures of the response calls *)

(** X8.  The status line and the CORS header are sent outside the [try]
    block: when one of these two calls raises, the exception leaves the
    handler, nothing more is sent, and the engine is not called. *)
Theorem failure_before_try_escapes
    (rt : runtime) (conn : connection) (req : request) (k : nat) (e : exn) :
  (k <= 1)%nat ->
  conn k = Some e ->
  (forall n, (n < k)%nat -> conn n = None) ->
  do_POST rt conn req fresh
  = (Raise e,
     mk_world
       (firstn k [ SendResponse 200;
                   SendHeader "Access-Control-Allow-Origin" "*" ])
       (S k) []).
Proof.
  intros Hk He Ho. unfold_handler. unfold perform. simpl.
  destruct k as [| [| k]]; [| | lia].
  - rewrite He. reflexivity.
  - rewrite (Ho 0%nat) by lia. simpl. rewrite He. reflexivity.
Qed.

Lemma failure_before_try_escapes_witness :
  do_POST Samples.speaking (broken_at 1 Samples.broken_pipe) Samples.hello
    fresh
  = (Raise Samples.broken_pipe, mk_world [SendResponse 200] 2 []).
Proof.
  apply (failure_before_try_escapes
           Samples.speaking (broken_at 1 Samples.broken_pipe) Samples.hello
           1 Samples.broken_pipe).
  - lia.
  - reflexivity.
  - intros n Hn. unfold broken_at.
    destruct (Nat.eqb n 1) eqn:E; [apply Nat.eqb_eq in E; lia | reflexivity].
Defined.

(** X9.  The [except] block has no handler of its own: when an exception
    [e1] was raised before the response and one of the three calls of the
    block then raises [e2], [e2] leaves the handler, and only the calls
    before it were sent. *)
Theorem failure_in_except_block_escapes
    (rt : runtime) (conn : connection) (req : request)
    (e1 e2 : exn) (k : nat) :
  raised_before_response rt req e1 ->
  (2 <= k <= 4)%nat ->
  conn k = Some e2 ->
  (forall n, (n < k)%nat -> conn n = None) ->
  fst (do_POST rt conn req fresh) = Raise e2
  /\ sent (snd (do_POST rt conn req fresh))
     = firstn k
         (json_trace (str_encode rt (json_dumps rt [("error", exn_str e1)]))).
Proof.
  intros Hr Hk He Ho.
  assert (Hc : (k = 2 \/ k = 3 \/ k = 4)%nat) by lia.
  assert (Hpre :
            read_json rt req = Raise e1
            \/ (exists data, read_json rt req = Ok data
                  /\ py_get data "text" (VStr "") = Raise e1)
            \/ (exists data text,
                  read_json rt req = Ok data
                  /\ py_get data "text" (VStr "") = Ok text
                  /\ truthy text = true
                  /\ synthesis rt text = Raise e1)).
  { destruct Hr as [Hi | n Hi Hrd | n raw Hi Hrd Hd | n raw text Hi Hrd Hd Hl
                   | data Hj Hg | data text Hj Hg Ht Hs].
    1-4: left; unfold read_json; rewrite Hi; try rewrite Hrd;
      try rewrite Hd; auto.
    - right. left. now exists data.
    - right. right. now exists data, text. }
  unfold_handler. unfold perform. simpl.
  rewrite (Ho 0%nat) by lia. simpl. rewrite (Ho 1%nat) by lia. simpl.
  destruct Hpre
    as [Hj | [(data & Hj & Hg) | (data & text & Hj & Hg & Ht & Hs)]];
    rewrite Hj; simpl; try (rewrite Hg; simpl);
    try (rewrite Ht; simpl; rewrite generate_audio_spec; simpl;
         rewrite Hs; simpl);
    destruct Hc as [-> | [-> | ->]];
    repeat (match goal with
            | |- context [conn ?n] =>
                first [ rewrite He | rewrite (Ho n) by lia ]; simpl
            end);
    split; reflexivity.
Qed.

Lemma failure_in_except_block_escapes_witness :
  do_POST Samples.speaking (broken_at 4 Samples.broken_pipe) Samples.not_json
    fresh
  = (Raise Samples.broken_pipe,
     mk_world
       [ SendResponse 200;
         SendHeader "Access-Control-Allow-Origin" "*";
         SendHeader "Content-Type" "application/json";
         EndHeaders ] 5 [])
  /\ fst (do_POST Samples.speaking (broken_at 4 Samples.broken_pipe)
            Samples.not_json fresh)
     = Raise Samples.broken_pipe.
Proof.
  split; [reflexivity |].
  apply (failure_in_except_block_escapes
           Samples.speaking (broken_at 4 Samples.broken_pipe)
           Samples.not_json
           (mk_exn "JSONDecodeError"
              "Expecting value: line 1 column 1 (char 0)")
           Samples.broken_pipe 4).
  - apply (raised_by_loads _ _ _ 8 (list_byte_of_string "not json")
             "not json"); reflexivity.
  - lia.
  - reflexivity.
  - intros n Hn. unfold broken_at.
    destruct (Nat.eqb n 4) eqn:E; [apply Nat.eqb_eq in E; lia | reflexivity].
Defined.



(** X11.  [do_OPTIONS] has no [try] block: when one of its five calls
    raises, the exception leaves the handler and only the calls before it
    were sent. *)
Theorem options_failure_escapes (conn : connection) (k : nat) (e : exn) :
  (k <= 4)%nat ->
  conn k = Some e ->
  (forall n, (n < k)%nat -> conn n = None) ->
  do_OPTIONS conn fresh
  = (Raise e, mk_world (firstn k options_trace) (S k) []).
Proof.
  intros Hk He Ho.
  assert (Hc : (k = 0 \/ k = 1 \/ k = 2 \/ k = 3 \/ k = 4)%nat) by lia.
  unfold_handler. unfold perform. simpl.
  destruct Hc as [-> | [-> | [-> | [-> | ->]]]];
    repeat (match goal with
            | |- context [conn ?n] =>
                first [ rewrite He | rewrite (Ho n) by lia ]; simpl
            end);
    reflexivity.
Qed.

Lemma options_failure_escapes_witness :
  do_OPTIONS (broken_at 4 Samples.broken_pipe) fresh
  = (Raise Samples.broken_pipe,
     mk_world
       [ SendResponse 200;
         SendHeader "Access-Control-Allow-Origin" "*";
         SendHeader "Access-Control-Allow-Methods" "POST, OPTIONS";
         SendHeader "Access-Control-Allow-Headers" "Content-Type" ]
       5 []).
Proof.
  apply (options_failure_escapes (broken_at 4 Samples.broken_pipe) 4
           Samples.broken_pipe).
  - lia.
  - reflexivity.
  - intros n Hn. unfold broken_at.
    destruct (Nat.eqb n 4) eqn:E; [apply Nat.eqb_eq in E; lia | reflexivity].
Defined.

(** ** The engine *)

(** X12.  Whatever the request and whatever the connection does, the POST
    handler calls the engine at most once, and only with the [text] of the
    request when it is truthy: there is no retry. *)
Theorem engine_called_at_most_once
    (rt : runtime) (conn : connection) (req : request) :
  (List.length (engine_calls (snd (do_POST rt conn req fresh))) <= 1)%nat
  /\ (forall text voice,
        In (text, voice) (engine_calls (snd (do_POST rt conn req fresh))) ->
        voice = VOICE
        /\ truthy text = true
        /\ exists data,
             read_json rt req = Ok data
             /\ py_get data "text" (VStr "") = Ok text).
Proof.
  destruct (do_POST_engine_calls rt conn req)
    as [-> | (data & t & Hj & Hg & Ht & ->)].
  - split; [simpl; lia |]. intros text voice [].
  - split; [simpl; lia |]. intros text voice [Heq | []].
    inversion Heq; subst. split; [reflexivity |]. split; [exact Ht |].
    now exists data.
Qed.

(** ** The handlers keep no state *)

Lemma after_assoc (w1 w2 w3 : world) :
  after (after w1 w2) w3 = after w1 (after w2 w3).
Proof.
  unfold after. simpl. now rewrite <- !app_assoc, Nat.add_assoc.
Qed.

Lemma frame_frame {A} (w1 w2 : world) (run : result A * world) :
  frame w1 (frame w2 run) = frame (after w1 w2) run.
Proof.
  unfold frame. simpl. now rewrite after_assoc.
Qed.

Lemma appends_perform (ev : event) : appends (fun conn => perform conn ev).
Proof.
  intros conn conn' w H. unfold perform, frame. simpl.
  rewrite (H 0%nat), Nat.add_0_r.
  destruct (conn (attempts w)); unfold after; simpl;
    now rewrite !app_nil_r, Nat.add_1_r.
Qed.

Lemma appends_lift {A} (r : result A) : appends (fun _ => lift r).
Proof.
  intros conn conn' w H. unfold lift, frame, after. simpl.
  rewrite !app_nil_r, Nat.add_0_r. now destruct w.
Qed.

Lemma appends_generate_audio (rt : runtime) (text : value) :
  appends (fun _ => generate_audio rt text).
Proof.
  intros conn conn' w H. rewrite !generate_audio_spec.
  unfold frame, after. simpl. now rewrite !app_nil_r, Nat.add_0_r.
Qed.

Lemma appends_bind {A B} (m : connection -> M A)
    (k : A -> connection -> M B) :
  appends m ->
  (forall a, appends (k a)) ->
  appends (fun conn => bind (m conn) (fun a => k a conn)).
Proof.
  intros Hm Hk conn conn' w H. unfold bind. rewrite (Hm conn conn' w H).
  unfold frame at 1. simpl.
  destruct (m conn' fresh) as [[a | e] w1]; simpl; [| reflexivity].
  rewrite (Hk a conn (shift (attempts w1) conn') (after w w1)).
  - rewrite (Hk a conn' (shift (attempts w1) conn') w1) by reflexivity.
    now rewrite frame_frame.
  - intros n. unfold shift. simpl. rewrite H. f_equal. lia.
Qed.

Lemma appends_try_except {A} (m : connection -> M A)
    (h : exn -> connection -> M A) :
  appends m ->
  (forall e, appends (h e)) ->
  appends (fun conn => try_except (m conn) (fun e => h e conn)).
Proof.
  intros Hm Hh conn conn' w H. unfold try_except.
  rewrite (Hm conn conn' w H). unfold frame at 1. simpl.
  destruct (m conn' fresh) as [[a | e] w1]; simpl; [reflexivity |].
  rewrite (Hh e conn (shift (attempts w1) conn') (after w w1)).
  - rewrite (Hh e conn' (shift (attempts w1) conn') w1) by reflexivity.
    now rewrite frame_frame.
  - intros n. unfold shift. simpl. rewrite H. f_equal. lia.
Qed.

Ltac appends_step :=
  first
    [ apply appends_perform
    | apply appends_lift
    | apply appends_generate_audio
    | apply appends_bind; [| intros ?]
    | apply appends_try_except; [| intros ?]
    | match goal with
      | |- appends (fun _ => if ?b then _ else _) => destruct b
      end ].

Lemma appends_do_OPTIONS : appends do_OPTIONS.
Proof.
  unfold do_OPTIONS, send_response, send_header, end_headers.
  repeat appends_step.
Qed.

Lemma appends_do_POST (rt : runtime) (req : request) :
  appends (fun conn => do_POST rt conn req).
Proof.
  unfold do_POST, on_exception, send_response, send_header, end_headers,
    wfile_write.
  repeat appends_step.
Qed.

(** X13.  The handlers keep no state between requests: run after any
    earlier traffic [w], [do_POST] and [do_OPTIONS] return what they return
    on a fresh handler facing the rest of the connection, and only add
    their calls to what was sent and called before. *)
Theorem handlers_only_append
    (rt : runtime) (conn : connection) (req : request) (w : world) :
  do_POST rt conn req w
  = frame w (do_POST rt (shift (attempts w) conn) req fresh)
  /\ do_OPTIONS conn w
     = frame w (do_OPTIONS (shift (attempts w) conn) fresh).
Proof.
  split.
  - now apply (appends_do_POST rt req).
  - now apply appends_do_OPTIONS.
Qed.
